(** * ex2md: spreadsheet sheets to Markdown pipe tables

    A shallow embedding of [ex2md.py] and of the properties its
    specification states about it.

    Python strings are modelled as lists of one-byte characters, read as the
    code points 0..255; the character classes below are Python's on that
    range.  Python integers are unbounded and modelled by [Z] (the
    interpreter's configurable limit on the length of a decimal literal is
    not modelled).  Exceptions are values of [exn]; a call that may raise
    returns a [result]. *)

From Stdlib Require Import List Ascii String ZArith Lia Bool.
Import ListNotations.

(** ** Python strings *)

Module PyStr.

Definition str := list ascii.

(** A literal. *)
Definition lit (s : string) : str := list_ascii_of_string s.

Definition code (c : ascii) : nat := nat_of_ascii c.

Definition between (lo hi n : nat) : bool := Nat.leb lo n && Nat.leb n hi.

(** [str.isdecimal]: the characters [int] reads as digits. *)
Definition isdecimal (c : ascii) : bool := between 48 57 (code c).

(** [str.isdigit]: the decimal digits and the superscripts 2, 3 and 1
    (U+00B2, U+00B3, U+00B9). *)
Definition isdigit (c : ascii) : bool :=
  isdecimal c || Nat.eqb (code c) 178 || Nat.eqb (code c) 179
  || Nat.eqb (code c) 185.

(** [str.isspace]: TAB..CR, FS..US and space, NEL and NBSP. *)
Definition isspace (c : ascii) : bool :=
  between 9 13 (code c) || between 28 32 (code c)
  || Nat.eqb (code c) 133 || Nat.eqb (code c) 160.

(** ASCII letters, the column letters of a cell reference. *)
Definition isletter (c : ascii) : bool :=
  between 65 90 (code c) || between 97 122 (code c).

Definition eqc (a b : ascii) : bool := Ascii.eqb a b.

(** [c in s] for a one-character [c]. *)
Definition contains (c : ascii) (s : str) : bool := existsb (eqc c) s.

Fixpoint lstrip (s : str) : str :=
  match s with
  | c :: r => if isspace c then lstrip r else s
  | [] => []
  end.

Definition rstrip (s : str) : str := rev (lstrip (rev s)).

(** [s.strip()] *)
Definition strip (s : str) : str := rstrip (lstrip s).

(** [s.split(sep)] for a one-character separator: never the empty list. *)
Fixpoint split (sep : ascii) (s : str) : list str :=
  match s with
  | [] => [[]]
  | c :: r =>
      if eqc c sep then [] :: split sep r
      else match split sep r with
           | h :: t => (c :: h) :: t
           | [] => [[c]]
           end
  end.

(** [sep.join(parts)] *)
Fixpoint join (sep : str) (parts : list str) : str :=
  match parts with
  | [] => []
  | [p] => p
  | p :: ps => p ++ sep ++ join sep ps
  end.

(** [s.replace(old, new)] for a one-character [old]. *)
Fixpoint replace (old : ascii) (new : str) (s : str) : str :=
  match s with
  | [] => []
  | c :: r => if eqc c old then new ++ replace old new r
              else c :: replace old new r
  end.

Definition digit_value (c : ascii) : Z := Z.of_nat (code c) - 48.

(** The digits of an [int] literal after the sign: decimal digits, single
    underscores allowed between two digits. *)
Fixpoint int_body (after_digit : bool) (acc : Z) (s : str) : option Z :=
  match s with
  | [] => if after_digit then Some acc else None
  | c :: r =>
      if isdecimal c then int_body true (acc * 10 + digit_value c) r
      else if eqc c "_" then
             if after_digit then int_body false acc r else None
      else None
  end.

(** [int(s)] in base 10; [None] stands for [ValueError]. *)
Definition int (s : str) : option Z :=
  match strip s with
  | "+"%char :: r => int_body false 0 r
  | "-"%char :: r => option_map Z.opp (int_body false 0 r)
  | t => int_body false 0 t
  end.

(** The digits [ds] read after the number [acc]. *)
Definition shift (acc : Z) (ds : str) : Z :=
  fold_left (fun a c => (a * 10 + digit_value c)%Z) ds acc.

(** The number a plain decimal numeral denotes. *)
Definition numeral (ds : str) : Z := shift 0 ds.

(** No white space in front. *)
Definition no_lead (s : str) : Prop :=
  match s with
  | c :: _ => isspace c = false
  | [] => True
  end.

Definition nonempty (s : str) : bool :=
  match s with [] => false | _ => true end.

(** [a == b] *)
Fixpoint eqs (a b : str) : bool :=
  match a, b with
  | [], [] => true
  | x :: a', y :: b' => eqc x y && eqs a' b'
  | _, _ => false
  end.

End PyStr.

Import PyStr.

(** ** Exceptions and results *)

Inductive exn : Type :=
| ValueError (msg : str)
| IndexError
| AttributeError (name : str)
| MemoryError
| FileNotFoundError
| OSError (msg : str)
| LookupError (msg : str)
| RequestException (msg : str)
| LibraryError (cls : str) (msg : str).

Inductive result (A : Type) : Type :=
| Ok (a : A)
| Raise (e : exn).
Arguments Ok {A} a.
Arguments Raise {A} e.

Definition raises {A} (r : result A) : bool :=
  match r with Ok _ => false | Raise _ => true end.

Definition bind {A B} (r : result A) (k : A -> result B) : result B :=
  match r with Ok a => k a | Raise e => Raise e end.

Notation "x <- r ;; k" := (bind r (fun x => k))
  (at level 61, r at next level, right associativity).

(** ** RangeSpecParser: [excel_range_to_params] and [range_checker] *)

Module Range.

Record params := mk_params {
  usecols : str;
  skiprows : Z;
  nrows : Z
}.

(** The five locals of the scanning loop. *)
Record scan := mk_scan {
  start_col : str;
  start_row : str;
  end_col : str;
  end_row : str;
  parsing_end_col : bool
}.

Definition scan0 : scan := mk_scan [] [] [] [] false.

(** One iteration of [for char in range_str]. *)
Definition scan_char (st : scan) (char : ascii) : scan :=
  if isdigit char then
    if negb (parsing_end_col st)
    then mk_scan (start_col st) (start_row st ++ [char]) (end_col st)
                 (end_row st) (parsing_end_col st)
    else mk_scan (start_col st) (start_row st) (end_col st)
                 (end_row st ++ [char]) (parsing_end_col st)
  else if eqc char ":" then
    mk_scan (start_col st) (start_row st) (end_col st) (end_row st) true
  else if negb (parsing_end_col st)
    then mk_scan (start_col st ++ [char]) (start_row st) (end_col st)
                 (end_row st) (parsing_end_col st)
    else mk_scan (start_col st) (start_row st) (end_col st ++ [char])
                 (end_row st) (parsing_end_col st).

Definition scan_all (range_str : str) : scan :=
  fold_left scan_char range_str scan0.

Definition invalid_literal (s : str) : exn :=
  ValueError (lit "invalid literal for int() with base 10: '" ++ s ++ lit "'").

Definition int_or_raise (s : str) : result Z :=
  match int s with
  | Some z => Ok z
  | None => Raise (invalid_literal s)
  end.

Definition excel_range_to_params (range_str : str) : result params :=
  let st := scan_all range_str in
  let col_range := start_col st ++ lit ":" ++ end_col st in
  sr <- int_or_raise (start_row st) ;;
  let skiprows := (sr - 1)%Z in
  er <- int_or_raise (end_row st) ;;
  let nrows := (er - skiprows)%Z in
  Ok (mk_params col_range skiprows nrows).

(** [range_checker]: the bare [except] turns every failure into [False]. *)
Definition range_checker (range_str : str) : bool :=
  match excel_range_to_params range_str with
  | Ok _ => true
  | Raise _ => false
  end.

(** The part of a string before its first colon, and the part after it. *)
Fixpoint before_colon (s : str) : str :=
  match s with
  | [] => []
  | c :: r => if eqc c ":" then [] else c :: before_colon r
  end.

Fixpoint after_colon (s : str) : str :=
  match s with
  | [] => []
  | c :: r => if eqc c ":" then r else after_colon r
  end.

(** Neither a digit nor a colon: what the loop puts in a column buffer. *)
Definition other (c : ascii) : bool := negb (isdigit c) && negb (eqc c ":").

(** A row buffer [int] accepts: not empty, decimal digits only. *)
Definition row_ok (s : str) : bool := nonempty s && forallb isdecimal s.

Fixpoint takewhile (p : ascii -> bool) (s : str) : str :=
  match s with
  | c :: r => if p c then c :: takewhile p r else []
  | [] => []
  end.

Fixpoint dropwhile (p : ascii -> bool) (s : str) : str :=
  match s with
  | c :: r => if p c then dropwhile p r else s
  | [] => []
  end.

(** Follows the spec's words: the shape [<letters><digits>:<letters><digits>],
    each of the four parts not empty. *)
Definition matches_range_form (s : str) : bool :=
  let l1 := takewhile isletter s in
  let r1 := dropwhile isletter s in
  let d1 := takewhile isdecimal r1 in
  match dropwhile isdecimal r1 with
  | ":"%char :: r3 =>
      let l2 := takewhile isletter r3 in
      let r4 := dropwhile isletter r3 in
      let d2 := takewhile isdecimal r4 in
      nonempty l1 && nonempty d1 && nonempty l2 && nonempty d2
      && negb (nonempty (dropwhile isdecimal r4))
  | _ => false
  end.

End Range.

(** ** SheetSelector: [parse_sheet_numbers] and [parse_sheet_names] *)

Module Selector.

(** The value under the key ['sheet']: an [int] or a [str]. *)
Inductive sheet_id : Type :=
| Index (i : Z)
| Name (s : str).

(** A dict [{'sheet': ..., 'range': ...}]; no range is the empty string. *)
Record sheet_spec := mk_spec {
  sheet : sheet_id;
  range : str
}.

(** [list(range(start, stop))] *)
Definition py_range (start stop : Z) : list Z :=
  map (fun k => (start + Z.of_nat k)%Z) (seq 0 (Z.to_nat (stop - start))).

Definition too_many_values : exn :=
  ValueError (lit "too many values to unpack (expected 2)").

Definition not_enough_values : exn :=
  ValueError (lit "not enough values to unpack (expected 2)").

(** One iteration of the loop of [parse_sheet_numbers]: the indices the item
    adds to [sheets].  [start, end = map(int, ...)] converts the parts as the
    unpacking asks for them, a third one included before it gives up. *)
Definition number_item (item : str) : result (list Z) :=
  if contains "-" item then
    match split "-" item with
    | [a; b] =>
        start <- Range.int_or_raise a ;;
        stop <- Range.int_or_raise b ;;
        Ok (py_range start (stop + 1))
    | a :: b :: c :: _ =>
        _ <- Range.int_or_raise a ;;
        _ <- Range.int_or_raise b ;;
        _ <- Range.int_or_raise c ;;
        Raise too_many_values
    | _ => Raise not_enough_values
    end
  else
    n <- Range.int_or_raise item ;;
    Ok [n].

Fixpoint numbers_loop (items : list str) (sheets : list Z)
  : result (list Z) :=
  match items with
  | [] => Ok sheets
  | item :: rest =>
      added <- number_item item ;;
      numbers_loop rest (sheets ++ added)
  end.

Definition parse_sheet_numbers (sheet_numbers : str)
  : result (list sheet_spec) :=
  sheets <- numbers_loop (split "," sheet_numbers) [] ;;
  Ok (map (fun sheet => mk_spec (Index sheet) []) sheets).

Definition invalid_range (range_str : str) : exn :=
  ValueError (lit "Invalid range: " ++ range_str).

(** One iteration of the loop of [parse_sheet_names]. *)
Definition name_item (item : str) : result sheet_spec :=
  if contains "!" item then
    match split "!" item with
    | [sheet; range_str] =>
        if negb (Range.range_checker range_str)
        then Raise (invalid_range range_str)
        else Ok (mk_spec (Name (strip sheet)) range_str)
    | _ :: _ :: _ :: _ => Raise too_many_values
    | _ => Raise not_enough_values
    end
  else Ok (mk_spec (Name (strip item)) []).

Fixpoint names_loop (items : list str) (sheets : list sheet_spec)
  : result (list sheet_spec) :=
  match items with
  | [] => Ok sheets
  | item :: rest =>
      spec <- name_item item ;;
      names_loop rest (sheets ++ [spec])
  end.

Definition parse_sheet_names (sheet_names : str)
  : result (list sheet_spec) :=
  names_loop (split "," sheet_names) [].

(** A token of a number selector, as the spec describes it: one numeral,
    or two numerals around a hyphen. *)
Inductive number_token : Type :=
| Single (n : str)
| Span (a b : str).

Definition number_token_text (t : number_token) : str :=
  match t with
  | Single n => n
  | Span a b => a ++ lit "-" ++ b
  end.

Definition number_token_ok (t : number_token) : Prop :=
  match t with
  | Single n => Range.row_ok n = true
  | Span a b => Range.row_ok a = true /\ Range.row_ok b = true
  end.

(** The inclusive sequence a, a+1, ..., b. *)
Fixpoint inclusive (a : Z) (len : nat) : list Z :=
  match len with
  | O => []
  | S k => a :: inclusive (a + 1) k
  end.

Definition number_token_indices (t : number_token) : list Z :=
  match t with
  | Single n => [numeral n]
  | Span a b => inclusive (numeral a) (Z.to_nat (numeral b + 1 - numeral a))
  end.

(** A token of a name selector: a bare name, or a name, [!] and a range. *)
Inductive name_token : Type :=
| Bare (name : str)
| Ranged (name range_str : str).

Definition name_token_text (t : name_token) : str :=
  match t with
  | Bare name => name
  | Ranged name r => name ++ lit "!" ++ r
  end.

(** Neither part of a token holds a comma or an exclamation mark. *)
Definition plain (s : str) : bool :=
  negb (contains "," s) && negb (contains "!" s).

Definition name_token_plain (t : name_token) : bool :=
  match t with
  | Bare name => plain name
  | Ranged name r => plain name && plain r
  end.

Definition name_token_valid (t : name_token) : bool :=
  match t with
  | Bare _ => true
  | Ranged _ r => Range.range_checker r
  end.

(** The SheetSpec the spec's words give a token: its name as written. *)
Definition name_token_spec_verbatim (t : name_token) : sheet_spec :=
  match t with
  | Bare name => mk_spec (Name name) []
  | Ranged name r => mk_spec (Name name) r
  end.

(** The SheetSpec the code gives it: the name stripped. *)
Definition name_token_spec (t : name_token) : sheet_spec :=
  match t with
  | Bare name => mk_spec (Name (strip name)) []
  | Ranged name r => mk_spec (Name (strip name)) r
  end.

End Selector.

(** ** TableNormalizer: [escape_newlines], [clean_markdown_lines],
    [convert_to_markdown_array] *)

Module Render.

Definition newline : ascii := "010"%char.
Definition pipe : ascii := "|"%char.
Definition marker : str := lit "<br>".

(** A cell of a DataFrame: missing, a string, or another scalar. *)
Inductive cell : Type :=
| NaN
| Str (s : str)
| Num (n : Z).

Record DataFrame := mk_df {
  columns : list cell;
  rows : list (list cell)
}.

(** [df.applymap(f)]: [f] on every cell, the labels untouched. *)
Definition applymap (f : cell -> cell) (df : DataFrame) : DataFrame :=
  mk_df (columns df) (map (map f) (rows df)).

(** [df.fillna(value)] *)
Definition fillna (value : str) (df : DataFrame) : DataFrame :=
  applymap (fun x => match x with NaN => Str value | _ => x end) df.

(** The lambda of [escape_newlines]. *)
Definition escape_cell (x : cell) : cell :=
  match x with
  | Str s => Str (replace newline marker s)
  | _ => x
  end.

Definition escape_newlines (df : DataFrame) : DataFrame :=
  applymap escape_cell df.

Definition clean_line (line : str) : str :=
  if contains pipe line then
    let parts := split pipe line in
    let cleaned_parts := map strip parts in
    join [pipe] cleaned_parts
  else line.

Definition clean_markdown_lines (markdown_array : list str) : list str :=
  map clean_line markdown_array.

Definition is_marker (c1 c2 c3 c4 : ascii) : bool :=
  eqc c1 "<" && eqc c2 "b" && eqc c3 "r" && eqc c4 ">".

(** Follows the spec's words: the inverse "unescape", every marker back to
    a line break. *)
Fixpoint unescape (s : str) : str :=
  match s with
  | c1 :: r1 =>
      match r1 with
      | c2 :: c3 :: c4 :: r =>
          if is_marker c1 c2 c3 c4 then newline :: unescape r
          else c1 :: unescape r1
      | _ => c1 :: unescape r1
      end
  | [] => []
  end.

Definition unescape_cell (x : cell) : cell :=
  match x with
  | Str s => Str (unescape s)
  | _ => x
  end.

(** The text of the marker occurs in [s]. *)
Fixpoint has_marker (s : str) : bool :=
  match s with
  | c1 :: r1 =>
      match r1 with
      | c2 :: c3 :: c4 :: _ => is_marker c1 c2 c3 c4 || has_marker r1
      | _ => false
      end
  | [] => false
  end.

Definition marker_free (x : cell) : bool :=
  match x with
  | Str s => negb (has_marker s)
  | _ => true
  end.

Definition cell_has_newline (x : cell) : bool :=
  match x with
  | Str s => contains newline s
  | _ => false
  end.

Section Renderer.

(** [tabulate(df, tablefmt="pipe", headers="keys", showindex=False)], the
    pipe-table renderer, is outside the repository. *)
Variable tabulate : DataFrame -> result str.

Definition convert_to_markdown_array (df : DataFrame) : result (list str) :=
  let df_escaped := escape_newlines (fillna [] df) in
  text <- tabulate df_escaped ;;
  let markdown_array := split newline text in
  Ok (clean_markdown_lines markdown_array).

End Renderer.

End Render.

(** ** BatchDriver and OutputSink: [process_excel_to_markdown],
    [save_markdown], [post_markdown_to_api] *)

Module Driver.

Import Selector Render.

Inductive level : Type := INFO | ERROR.

(** The calls of [logging.info] and [logging.error], by call site. *)
Inductive message : Type :=
| SavedFile (output_file encoding : str)
| PostedOk (file_name : str)
| PostFailed (file_name : str) (e : exn)
| SheetReadError (sheet_name : sheet_id) (e : exn)
| SheetNoMemory (sheet_name : sheet_id)
| SheetUnexpected (sheet_name : sheet_id) (e : exn)
| NoSuchFile
| Unexpected (e : exn).

(** What a run does to the world, in order: a log entry, a call of
    [pd.read_excel], a file opened for writing (created or truncated), a
    text written to it, a request handed to [requests.post]. *)
Inductive event : Type :=
| Log (lv : level) (m : message)
| ReadExcel (sheet_name : str) (params : option Range.params)
| FileOpened (path : str)
| FileWritten (path : str) (data : str)
| Posted (url authorization title content : str).

Definition history := list event.

(** Computations that read and extend the history and may raise. *)
Definition M (A : Type) : Type := history -> result A * history.

Definition ret {A} (a : A) : M A := fun h => (Ok a, h).

Definition raise {A} (e : exn) : M A := fun h => (Raise e, h).

Definition lift {A} (r : result A) : M A := fun h => (r, h).

Definition bindM {A B} (m : M A) (k : A -> M B) : M B :=
  fun h => match m h with
           | (Ok a, h1) => k a h1
           | (Raise e, h1) => (Raise e, h1)
           end.

Definition emit (ev : event) : M unit := fun h => (Ok tt, h ++ [ev]).

(** A call to the outside, which sees what happened so far. *)
Definition call {A} (f : history -> result A) : M A := fun h => (f h, h).

(** [try: m  except ... : handler] *)
Definition try_catch {A} (m : M A) (handler : exn -> M A) : M A :=
  fun h => match m h with
           | (Ok a, h1) => (Ok a, h1)
           | (Raise e, h1) => handler e h1
           end.

Notation "x <~ m ;; k" := (bindM m (fun x => k))
  (at level 61, m at next level, right associativity).
Notation "m ;;; k" := (bindM m (fun _ => k))
  (at level 61, right associativity).

Fixpoint for_each {A} (l : list A) (body : A -> M unit) : M unit :=
  match l with
  | [] => ret tt
  | x :: rest => body x ;;; for_each rest body
  end.

Definition logging (lv : level) (m : message) : M unit := emit (Log lv m).

(** Unfolds the operations of [M]. *)
Ltac unfold_m :=
  unfold logging; unfold try_catch, bindM, emit, call, lift, raise, ret.

(** [l[k]] on a Python list: a negative [k] counts from the end. *)
Definition py_index {A} (l : list A) (k : Z) : option A :=
  let n := Z.of_nat (List.length l) in
  if ((0 <=? k) && (k <? n))%Z then nth_error l (Z.to_nat k)
  else if ((- n <=? k) && (k <? 0))%Z then nth_error l (Z.to_nat (n + k))
  else None.

(** [if isinstance(sheet_name, int):
        sheet_name = xls.sheet_names[sheet_name - 1]] *)
Definition resolve (sheet_names : list str) (sheet_name : sheet_id)
  : result str :=
  match sheet_name with
  | Index i =>
      match py_index sheet_names (i - 1) with
      | Some name => Ok name
      | None => Raise IndexError
      end
  | Name s => Ok s
  end.

(** The value of the variable [sheet_name] when a handler of the inner
    [try] runs: the resolved name, or the integer that did not resolve. *)
Definition name_at_handler (sheet_names : list str) (sheet_name : sheet_id)
  : sheet_id :=
  match resolve sheet_names sheet_name with
  | Ok name => Name name
  | Raise _ => sheet_name
  end.

(** [os.path.basename] *)
Definition basename (path : str) : str := last (split "/" path) [].

(** [s.encode(encoding, errors='replace')], character by character. *)
Definition encode_replace (enc : ascii -> option str) (s : str) : str :=
  flat_map (fun c => match enc c with
                     | Some bytes => bytes
                     | None => match enc "?"%char with
                               | Some q => q
                               | None => ["?"%char]
                               end
                     end) s.

(** [s.encode(encoding)], which raises on the first character the encoding
    cannot represent. *)
Fixpoint encode_strict (enc : ascii -> option str) (s : str) : option str :=
  match s with
  | [] => Some []
  | c :: r => match enc c, encode_strict enc r with
              | Some b, Some bs => Some (b ++ bs)
              | _, _ => None
              end
  end.

Definition api_url : str := lit "https://notepm.jp/docs/api/note/api/v1/notes".

(** The workbook reader, the renderer, the file system, the codec registry,
    the HTTP client and the environment are outside the repository.  The
    calls that do input or output see the history so far.  [XLRDError] is
    what the expression [pd.errors.XLRDError] evaluates to when a handler is
    looked for: a class of exceptions, or nothing when the attribute does
    not exist. *)
Class World : Type := {
  workbook : Type;
  sheet_names : workbook -> list str;
  ExcelFile : str -> result workbook;
  read_excel :
    history -> workbook -> str -> option Range.params -> result DataFrame;
  tabulate : DataFrame -> result str;
  open_file : history -> str -> result unit;
  codec : str -> option (ascii -> option str);
  write_file : history -> str -> str -> result unit;
  requests_post : history -> str -> str -> str -> str -> result Z;
  NOTEPM_SECRET : option str;
  XLRDError : option (exn -> bool)
}.

Section Program.

Context {W : World}.

Definition get_secret_from_env : option str := NOTEPM_SECRET.

Definition bearer : str :=
  lit "Bearer " ++ match get_secret_from_env with
                   | Some secret => secret
                   | None => lit "None"
                   end.

(** [response.raise_for_status()] *)
Definition raise_for_status (status : Z) : M unit :=
  if ((400 <=? status) && (status <? 600))%Z
  then raise (RequestException (lit "HTTPError"))
  else ret tt.

Definition post_markdown_to_api (markdown_data file_name : str) : M unit :=
  try_catch
    (emit (Posted api_url bearer file_name markdown_data) ;;;
     status <~ call (fun h =>
                 requests_post h api_url bearer file_name markdown_data) ;;
     raise_for_status status ;;;
     logging INFO (PostedOk file_name))
    (fun e => match e with
              | RequestException _ => logging ERROR (PostFailed file_name e)
              | _ => raise e
              end).

(** [with open(output_file, 'w', encoding=encoding, errors='replace') as f:
    f.write(markdown_data)] *)
Definition write_text (output_file encoding markdown_data : str) : M unit :=
  call (fun h => open_file h output_file) ;;;
  emit (FileOpened output_file) ;;;
  enc <~ match codec encoding with
         | Some enc => ret enc
         | None => raise (LookupError (lit "unknown encoding: " ++ encoding))
         end ;;
  let data := encode_replace enc markdown_data in
  call (fun h => write_file h output_file data) ;;;
  emit (FileWritten output_file data).

Definition save_markdown (markdown_array : list str)
    (output_file encoding : str) (upload save_as_file : bool) : M unit :=
  let markdown_data := join [newline] markdown_array in
  (if save_as_file || negb upload then
     write_text output_file encoding markdown_data ;;;
     logging INFO (SavedFile output_file encoding)
   else ret tt) ;;;
  (if upload then post_markdown_to_api markdown_data (basename output_file)
   else ret tt).

(** The statements of the inner [try] after the sheet name is resolved:
    first the sheet is read and rendered, *)
Definition read_and_render (xls : workbook) (sheet_name range_str : str)
  : M (list str) :=
  df <~ (if nonempty range_str then
           params <~ lift (Range.excel_range_to_params range_str) ;;
           emit (ReadExcel sheet_name (Some params)) ;;;
           call (fun h => read_excel h xls sheet_name (Some params))
         else
           emit (ReadExcel sheet_name None) ;;;
           call (fun h => read_excel h xls sheet_name None)) ;;
  lift (convert_to_markdown_array tabulate df).

(** then the lines go to the sink. *)
Definition sheet_steps (xls : workbook) (output_file encoding : str)
    (upload save_as_file : bool) (sheet_name range_str : str) : M unit :=
  markdown_array <~ read_and_render xls sheet_name range_str ;;
  let sheet_output_file := output_file ++ lit "_" ++ sheet_name in
  save_markdown markdown_array sheet_output_file encoding upload save_as_file.

(** The body of the inner [try]. *)
Definition sheet_body (xls : workbook) (output_file encoding : str)
    (upload save_as_file : bool) (spec : sheet_spec) : M unit :=
  sheet_name <~ lift (resolve (sheet_names xls) (sheet spec)) ;;
  sheet_steps xls output_file encoding upload save_as_file
              sheet_name (range spec).

Definition is_MemoryError (e : exn) : bool :=
  match e with MemoryError => true | _ => false end.

(** The message of the first of the three [except] clauses of the inner
    [try] that matches. *)
Definition sheet_error_message (is_XLRDError : exn -> bool)
    (sheet_name : sheet_id) (e : exn) : message :=
  if is_XLRDError e then SheetReadError sheet_name e
  else if is_MemoryError e then SheetNoMemory sheet_name
  else SheetUnexpected sheet_name e.

(** The [except] clauses of the inner [try], tried in order; the first one
    evaluates [pd.errors.XLRDError], and an exception raised by that
    evaluation leaves the [try] statement. *)
Definition sheet_handlers (sheet_name : sheet_id) (e : exn) : M unit :=
  match XLRDError with
  | None => raise (AttributeError (lit "XLRDError"))
  | Some is_XLRDError =>
      logging ERROR (sheet_error_message is_XLRDError sheet_name e)
  end.

(** One iteration of [for sheet in sheets]. *)
Definition process_sheet (xls : workbook) (output_file encoding : str)
    (upload save_as_file : bool) (spec : sheet_spec) : M unit :=
  try_catch
    (sheet_body xls output_file encoding upload save_as_file spec)
    (sheet_handlers (name_at_handler (sheet_names xls) (sheet spec))).

Definition process_excel_to_markdown (input_file output_file : str)
    (sheets : list sheet_spec) (encoding : str)
    (upload save_as_file : bool) : M unit :=
  try_catch
    (xls <~ lift (ExcelFile input_file) ;;
     for_each sheets
       (process_sheet xls output_file encoding upload save_as_file))
    (fun e => match e with
              | FileNotFoundError => logging ERROR NoSuchFile
              | _ => logging ERROR (Unexpected e)
              end).


(** The message of the outer handlers for a workbook that does not open. *)
Definition open_error_message (e : exn) : message :=
  match e with
  | FileNotFoundError => NoSuchFile
  | _ => Unexpected e
  end.

(** An upload that fails: the request raises a [RequestException], or the
    response has an error status. *)
Definition upload_failure (r : result Z) : option exn :=
  match r with
  | Raise (RequestException msg) => Some (RequestException msg)
  | Raise _ => None
  | Ok status =>
      if ((400 <=? status) && (status <? 600))%Z
      then Some (RequestException (lit "HTTPError"))
      else None
  end.

End Program.

(** The events that touch a local file. *)
Definition is_file_event (ev : event) : bool :=
  match ev with
  | FileOpened _ | FileWritten _ _ => true
  | _ => false
  end.

End Driver.

(** ** A sample world

    A workbook [book.xlsx] with the sheets [Sheet1] and [Sheet3], each
    holding one table with a line break in a cell; a plain renderer; a
    codec registry that knows [ascii] only; a server that answers every
    request with the status [post_status]. *)

Module Sample.

Import Selector Render Driver.

Definition table : DataFrame :=
  mk_df [Str (lit "item")]
        [[Str (lit "caf" ++ ["233"%char] ++ [newline] ++ lit "bar")]; [NaN]].

Definition cell_text (x : cell) : str :=
  match x with
  | NaN => lit "nan"
  | Str s => s
  | Num _ => lit "#"
  end.

Definition pipe_row (cells : list str) : str :=
  lit "| " ++ join (lit " | ") cells ++ lit " |".

Definition plain_tabulate (df : DataFrame) : result str :=
  Ok (join [newline]
        (pipe_row (map cell_text (columns df))
         :: pipe_row (map (fun _ => lit "---") (columns df))
         :: map (fun row => pipe_row (map cell_text row)) (rows df))).

Definition ascii_codec (c : ascii) : option str :=
  if Nat.ltb (code c) 128 then Some [c] else None.

Definition world (post_status : Z) : World := {|
  workbook := list str;
  sheet_names := fun xls => xls;
  ExcelFile := fun path =>
    if eqs path (lit "book.xlsx")
    then Ok [lit "Sheet1"; lit "Sheet3"]
    else Raise FileNotFoundError;
  read_excel := fun _ xls sheet_name _ =>
    if existsb (eqs sheet_name) xls then Ok table
    else Raise (ValueError (lit "Worksheet not found"));
  tabulate := plain_tabulate;
  open_file := fun _ _ => Ok tt;
  codec := fun encoding =>
    if eqs encoding (lit "ascii") then Some ascii_codec else None;
  write_file := fun _ _ _ => Ok tt;
  requests_post := fun _ _ _ _ _ => Ok post_status;
  NOTEPM_SECRET := None;
  XLRDError := Some (fun e =>
    match e with
    | LibraryError cls _ => eqs cls (lit "XLRDError")
    | _ => false
    end)
|}.

Definition three_sheets : list sheet_spec :=
  [mk_spec (Name (lit "Sheet1")) [];
   mk_spec (Name (lit "Nope")) [];
   mk_spec (Name (lit "Sheet3")) []].

End Sample.

(** ** Number selectors written with white space

    [int] skips white space around its argument, so the numerals of a
    number selector may be surrounded by it.  The white space [int] skips
    is TAB..CR, space, NEL and NBSP: unlike [str.strip] it does not skip
    FS..US. *)

Module Padded.

Import Selector.

Definition int_space (c : ascii) : bool :=
  between 9 13 (code c) || Nat.eqb (code c) 32
  || Nat.eqb (code c) 133 || Nat.eqb (code c) 160.

(** A numeral with white space before and after it. *)
Record numeral_text := mk_numeral_text {
  lead : str;
  digits : str;
  trail : str
}.

Definition text (p : numeral_text) : str := lead p ++ digits p ++ trail p.

Definition numeral_text_ok (p : numeral_text) : bool :=
  forallb int_space (lead p) && Range.row_ok (digits p)
  && forallb int_space (trail p).

Inductive token : Type :=
| PSingle (n : numeral_text)
| PSpan (a b : numeral_text).

Definition token_text (t : token) : str :=
  match t with
  | PSingle n => text n
  | PSpan a b => text a ++ lit "-" ++ text b
  end.

Definition token_ok (t : token) : bool :=
  match t with
  | PSingle n => numeral_text_ok n
  | PSpan a b => numeral_text_ok a && numeral_text_ok b
  end.

(** The token without its white space. *)
Definition bare (t : token) : number_token :=
  match t with
  | PSingle n => Single (digits n)
  | PSpan a b => Span (digits a) (digits b)
  end.

End Padded.

(** ** Text without its white space *)

Module Text.

(** The characters of [s] that are not white space, in order. *)
Definition solid (s : str) : str := filter (fun c => negb (isspace c)) s.

(** The number of column separators of a line. *)
Definition pipes (line : str) : nat :=
  count_occ ascii_dec line Render.pipe.

End Text.

(** ** What the selectors return and raise *)

Module Outcome.

Import Range Selector.

Definition is_value_error (e : exn) : Prop := exists msg, e = ValueError msg.

(** What every SheetSpec of a name selector satisfies: a stripped name,
    and a range the parser accepts when there is one. *)
Definition name_spec_ok (sp : sheet_spec) : Prop :=
  exists name,
    sheet sp = Name name /\ strip name = name
    /\ (nonempty (range sp) = true ->
        exists p, excel_range_to_params (range sp) = Ok p).

End Outcome.

(** ** The command line: [get_input_file] and [main] *)

Module Cli.

Import Selector Driver.

(** [s.startswith(prefix)] *)
Fixpoint startswith (prefix s : str) : bool :=
  match prefix, s with
  | [], _ => true
  | p :: ps, c :: r => eqc c p && startswith ps r
  | _ :: _, [] => false
  end.

(** [s.rfind(c)], counting from [i]: -1 when [c] does not occur. *)
Fixpoint rfind_from (i : Z) (c : ascii) (s : str) : Z :=
  match s with
  | [] => (-1)%Z
  | x :: r =>
      let j := rfind_from (i + 1) c r in
      if (0 <=? j)%Z then j else if eqc x c then i else (-1)%Z
  end.

Definition rfind (c : ascii) (s : str) : Z := rfind_from 0 c s.

(** [os.path.splitext(p)[0]]: [p] up to its last dot, when that dot comes
    after the last separator and after a character of the file name that
    is not a dot. *)
Definition splitext_root (p : str) : str :=
  let sepIndex := rfind "/" p in
  let dotIndex := rfind "." p in
  if (sepIndex <? dotIndex)%Z then
    let filename := skipn (Z.to_nat (sepIndex + 1)) p in
    let before_dot := firstn (Z.to_nat (dotIndex - (sepIndex + 1))) filename in
    if existsb (fun c => negb (eqc c ".")) before_dot
    then firstn (Z.to_nat dotIndex) p
    else p
  else p.

(** What the command line adds to the events of the driver. *)
Inductive cli_event : Type :=
| NotFound      (* ERROR File not found. Please provide a valid file path. *)
| BadFormat     (* ERROR Invalid file path format. ... *)
| Started       (* INFO Starting conversion process. *)
| Finished      (* INFO Conversion process completed. *)
| Core (ev : event).

(** [input()] at the end of the input raises [EOFError]. *)
Definition EOFError : exn :=
  LibraryError (lit "EOFError") (lit "EOF when reading a line").

Definition file_scheme : str := lit "file://".

(** [get_input_file], reading the lines [answers]: the result, the errors
    logged and the lines left. *)
Fixpoint get_input_file (isfile : str -> bool) (answers : list str)
  : result str * list cli_event * list str :=
  match answers with
  | [] => (Raise EOFError, [], [])
  | file_path :: rest =>
      if startswith file_scheme file_path then
        let file_path := skipn 7 file_path in
        if isfile file_path then (Ok file_path, [], rest)
        else
          let '(r, evs, rest') := get_input_file isfile rest in
          (r, NotFound :: evs, rest')
      else
        let '(r, evs, rest') := get_input_file isfile rest in
        (r, BadFormat :: evs, rest')
  end.

(** The namespace [parser.parse_args()] returns. *)
Record args := mk_args {
  input_file : option str;
  file_base_name : option str;
  sheet_name : option str;
  sheet_number : option str;
  encoding : str;
  verbose : bool;
  upload : bool;
  save_as_file : bool
}.

(** The truth value of an optional string: [None] and [''] are false. *)
Definition truthy (o : option str) : bool :=
  match o with
  | Some s => nonempty s
  | None => false
  end.

Definition value (o : option str) : str :=
  match o with
  | Some s => s
  | None => []
  end.

(** How [main] ends: it returns, [parser.error] exits with the usage
    message, or an exception leaves it. *)
Inductive exit : Type :=
| Returned
| UsageError
| Uncaught (e : exn).

Section Main.

Context {W : World}.

Variable isfile : str -> bool.

(** [main] after [parser.parse_args()], reading the lines [answers].
    Setting the level DEBUG for [verbose] shows nothing more: the program
    logs at INFO and ERROR only. *)
Definition main (a : args) (answers : list str) : exit * list cli_event :=
  if truthy (sheet_name a) && truthy (sheet_number a) then (UsageError, [])
  else
    match (if truthy (sheet_name a)
           then parse_sheet_names (value (sheet_name a))
           else if truthy (sheet_number a)
           then parse_sheet_numbers (value (sheet_number a))
           else Ok []) with
    | Raise e => (Uncaught e, [])
    | Ok sheets =>
        match (if truthy (input_file a)
               then (Ok (value (input_file a)), [], answers)
               else get_input_file isfile answers) with
        | (Raise e, evs, _) => (Uncaught e, evs)
        | (Ok input, evs, _) =>
            let base :=
              if truthy (file_base_name a) then value (file_base_name a)
              else splitext_root (basename input) in
            match process_excel_to_markdown input base sheets (encoding a)
                    (upload a) (save_as_file a) [] with
            | (Ok _, h) =>
                (Returned, evs ++ Started :: map Core h ++ [Finished])
            | (Raise e, h) => (Uncaught e, evs ++ Started :: map Core h)
            end
        end
    end.

End Main.

(** An answer [get_input_file] does not accept, and the error it logs for
    it. *)
Definition accepted (isfile : str -> bool) (answer : str) : bool :=
  startswith file_scheme answer && isfile (skipn 7 answer).

Definition rejection (answer : str) : cli_event :=
  if startswith file_scheme answer then NotFound else BadFormat.

(** The events of a run that opens the workbook and has no sheet to
    convert. *)
Definition open_only {W : World} (input : str) : list event :=
  match ExcelFile input with
  | Ok _ => []
  | Raise e => [Log ERROR (open_error_message e)]
  end.

(** The namespace [a] with another base name. *)
Definition with_base_name (a : args) (base : option str) : args :=
  mk_args (input_file a) base (sheet_name a) (sheet_number a)
          (encoding a) (verbose a) (upload a) (save_as_file a).

End Cli.

(** ** The earlier versions: [e2md.py] and [ex2md.old.py] *)

Module Legacy.

Import Selector Render Driver.

(** The marker of [e2md.py]: a backslash and the letter n. *)
Definition marker : str := ["\"%char; "n"%char].

(** The lambda of [escape_newlines] in [e2md.py]. *)
Definition escape_cell (x : cell) : cell :=
  match x with
  | Str s => Str (replace newline marker s)
  | _ => x
  end.

Definition escape_newlines (df : DataFrame) : DataFrame :=
  applymap escape_cell df.

(** What [save_markdown] writes in both earlier versions: every line
    followed by a line break. *)
Definition file_text (markdown_array : list str) : str :=
  flat_map (fun line => line ++ [newline]) markdown_array.

(** How [main] of [e2md.py] ends before it converts: it prints the usage
    and exits, [sys.argv[2]] raises [IndexError], or it calls
    [process_excel_to_markdown]. *)
Inductive start : Type :=
| Usage
| ArgvIndexError
| Convert (input_file output_file encoding : str).

Definition sjis_flag : str := lit "--encoding=sjis".

Definition main (argv : list str) : start :=
  if Nat.ltb (List.length argv) 2 then Usage
  else
    match nth_error argv 1, nth_error argv 2 with
    | Some input_file, Some output_file =>
        let encoding :=
          if existsb (eqs sjis_flag) argv then lit "shift_jis"
          else lit "utf-8" in
        Convert input_file output_file encoding
    | _, _ => ArgvIndexError
    end.

Section Old.

Context {W : World}.

(** [save_markdown] of [ex2md.old.py] *)
Definition save_markdown (markdown_array : list str)
    (output_file encoding : str) : M unit :=
  write_text output_file encoding (file_text markdown_array) ;;;
  logging INFO (SavedFile output_file encoding).

(** One iteration of the loop of [process_excel_to_markdown] in
    [ex2md.old.py]; [pd.read_excel(input_file, ...)] opens the workbook
    again. *)
Definition convert_sheet (input_file output_file encoding : str)
    (sheet_name : str) : M unit :=
  emit (ReadExcel sheet_name None) ;;;
  xls <~ lift (ExcelFile input_file) ;;
  df <~ call (fun h => read_excel h xls sheet_name None) ;;
  markdown_array <~ lift (convert_to_markdown_array tabulate df) ;;
  let sheet_output_file := output_file ++ lit "_" ++ sheet_name in
  save_markdown markdown_array sheet_output_file encoding.

(** [process_excel_to_markdown] of [ex2md.old.py]: every sheet of the
    workbook, no handler. *)
Definition process_excel_to_markdown (input_file output_file encoding : str)
  : M unit :=
  xls <~ lift (ExcelFile input_file) ;;
  for_each (sheet_names xls) (convert_sheet input_file output_file encoding).

End Old.

End Legacy.

(** ** A sample world where [pd.errors.XLRDError] does not exist *)

Module SampleNoClass.

Import Driver.

Definition world : World := {|
  workbook := @workbook (Sample.world 200);
  sheet_names := @sheet_names (Sample.world 200);
  ExcelFile := @ExcelFile (Sample.world 200);
  read_excel := @read_excel (Sample.world 200);
  tabulate := @tabulate (Sample.world 200);
  open_file := @open_file (Sample.world 200);
  codec := @codec (Sample.world 200);
  write_file := @write_file (Sample.world 200);
  requests_post := @requests_post (Sample.world 200);
  NOTEPM_SECRET := @NOTEPM_SECRET (Sample.world 200);
  XLRDError := None
|}.

End SampleNoClass.

(** ** A sample world whose HTTP client fails outside [requests] *)

Module SampleBrokenClient.

Import Driver.

Definition failure : exn :=
  LibraryError (lit "TypeError") (lit "not JSON serializable").

Definition world : World := {|
  workbook := @workbook (Sample.world 200);
  sheet_names := @sheet_names (Sample.world 200);
  ExcelFile := @ExcelFile (Sample.world 200);
  read_excel := @read_excel (Sample.world 200);
  tabulate := @tabulate (Sample.world 200);
  open_file := @open_file (Sample.world 200);
  codec := @codec (Sample.world 200);
  write_file := @write_file (Sample.world 200);
  requests_post := fun _ _ _ _ _ => Raise failure;
  NOTEPM_SECRET := Some (lit "s3cret");
  XLRDError := @XLRDError (Sample.world 200)
|}.

End SampleBrokenClient.

(** * Facts *)

(** ** Strings *)

Module StrFacts.

Lemma eqc_eq (a b : ascii) : eqc a b = true <-> a = b.
Proof. apply Ascii.eqb_eq. Qed.

Lemma eqc_neq (a b : ascii) : eqc a b = false <-> a <> b.
Proof. apply Ascii.eqb_neq. Qed.

Lemma eqc_refl (a : ascii) : eqc a a = true.
Proof. apply Ascii.eqb_refl. Qed.

Lemma contains_In (c : ascii) (s : str) : contains c s = true <-> In c s.
Proof.
  unfold contains. rewrite existsb_exists. split.
  - intros [x [Hx He]]. apply eqc_eq in He. now subst.
  - intros H. exists c. split; [assumption | apply eqc_refl].
Qed.

Lemma contains_false (c : ascii) (s : str) :
  contains c s = false <-> ~ In c s.
Proof.
  rewrite <- contains_In. destruct (contains c s); split; congruence.
Qed.

Lemma contains_app (c : ascii) (a b : str) :
  contains c (a ++ b) = contains c a || contains c b.
Proof. unfold contains. apply existsb_app. Qed.

Lemma contains_cons (c x : ascii) (s : str) :
  contains c (x :: s) = eqc c x || contains c s.
Proof. reflexivity. Qed.

Lemma split_not_nil (sep : ascii) (s : str) : split sep s <> [].
Proof.
  induction s as [|c r IH]; simpl; [discriminate|].
  destruct (eqc c sep); [discriminate|].
  destruct (split sep r); [contradiction | discriminate].
Qed.

(** Without separator there is one part. *)
Lemma split_none (sep : ascii) (s : str) :
  contains sep s = false -> split sep s = [s].
Proof.
  induction s as [|c r IH]; intros H; [reflexivity|].
  rewrite contains_cons in H. apply orb_false_iff in H as [Hc Hr].
  simpl. rewrite Ascii.eqb_sym in Hc. unfold eqc in *. rewrite Hc.
  now rewrite (IH Hr).
Qed.

(** The first part ends at the first separator. *)
Lemma split_app (sep : ascii) (a b : str) :
  contains sep a = false ->
  split sep (a ++ sep :: b) = a :: split sep b.
Proof.
  induction a as [|c r IH]; intros H; simpl.
  - now rewrite eqc_refl.
  - rewrite contains_cons in H. apply orb_false_iff in H as [Hc Hr].
    rewrite Ascii.eqb_sym in Hc. unfold eqc in *. rewrite Hc.
    now rewrite (IH Hr).
Qed.

Lemma split_parts_clean (sep : ascii) (s : str) :
  Forall (fun p => contains sep p = false) (split sep s).
Proof.
  induction s as [|c r IH]; simpl.
  - now repeat constructor.
  - destruct (eqc c sep) eqn:Hc.
    + now constructor.
    + destruct (split sep r) as [|h t] eqn:E;
        [now apply split_not_nil in E|].
      inversion IH as [|? ? Hh Ht]; subst. constructor; [|assumption].
      rewrite contains_cons, Hh. rewrite Ascii.eqb_sym in Hc.
      unfold eqc in *. now rewrite Hc.
Qed.

Lemma split_join (sep : ascii) (parts : list str) :
  parts <> [] ->
  Forall (fun p => contains sep p = false) parts ->
  split sep (join [sep] parts) = parts.
Proof.
  induction parts as [|p ps IH]; intros Hne Hall; [contradiction|].
  inversion Hall as [|? ? Hp Hps]; subst.
  destruct ps as [|q qs].
  - simpl. now apply split_none.
  - change (join [sep] (p :: q :: qs))
      with (p ++ sep :: join [sep] (q :: qs)).
    rewrite split_app by assumption.
    f_equal. apply IH; [discriminate | assumption].
Qed.

(** A string with a separator splits into two parts at least. *)
Lemma split_two (sep : ascii) (s : str) :
  contains sep s = true ->
  exists p q qs, split sep s = p :: q :: qs.
Proof.
  induction s as [|c r IH]; intros H; [discriminate|].
  rewrite contains_cons in H. simpl.
  destruct (eqc c sep) eqn:Hc.
  - destruct (split sep r) as [|q qs] eqn:E;
      [now apply split_not_nil in E|]. now exists [], q, qs.
  - rewrite Ascii.eqb_sym in H. unfold eqc in *. rewrite Hc in H.
    destruct (IH H) as (p & q & qs & E). rewrite E. now exists (c :: p), q, qs.
Qed.

Lemma contains_join_two (sep : ascii) (p q : str) (qs : list str) :
  contains sep (join [sep] (p :: q :: qs)) = true.
Proof.
  change (join [sep] (p :: q :: qs)) with (p ++ sep :: join [sep] (q :: qs)).
  rewrite contains_app, contains_cons, eqc_refl. apply orb_true_r.
Qed.

Lemma In_split (sep c : ascii) (s p : str) :
  In p (split sep s) -> In c p -> In c s.
Proof.
  revert p. induction s as [|x r IH]; simpl; intros p Hp Hc.
  - destruct Hp as [<-|[]]. contradiction.
  - destruct (eqc x sep).
    + destruct Hp as [<-|Hp]; [contradiction|]. right. eauto.
    + destruct (split sep r) as [|h t].
      * destruct Hp as [<-|[]]. destruct Hc as [<-|[]]. now left.
      * destruct Hp as [<-|Hp].
        -- destruct Hc as [<-|Hc]; [now left|].
           right. apply (IH h); simpl; auto.
        -- right. apply (IH p); simpl; auto.
Qed.


(** *** Stripping *)

Lemma lstrip_no_lead (s : str) : no_lead (lstrip s).
Proof.
  induction s as [|c r IH]; simpl; [exact I|].
  destruct (isspace c) eqn:Hc; [assumption | exact Hc].
Qed.

Lemma lstrip_fixed (s : str) : no_lead s -> lstrip s = s.
Proof. destruct s as [|c r]; simpl; [reflexivity|]. now intros ->. Qed.

Lemma lstrip_idem (s : str) : lstrip (lstrip s) = lstrip s.
Proof. apply lstrip_fixed, lstrip_no_lead. Qed.

(** What [lstrip] removes is a prefix of white space. *)
Lemma lstrip_split (s : str) :
  exists sp, s = sp ++ lstrip s /\ Forall (fun c => isspace c = true) sp.
Proof.
  induction s as [|c r [sp [E H]]]; simpl.
  - now exists [].
  - destruct (isspace c) eqn:Hc.
    + exists (c :: sp). simpl. split; [now f_equal | now constructor].
    + now exists [].
Qed.

Lemma rstrip_split (s : str) :
  exists sp, s = rstrip s ++ sp /\ Forall (fun c => isspace c = true) sp.
Proof.
  unfold rstrip. destruct (lstrip_split (rev s)) as [sp [E H]].
  exists (rev sp). split.
  - rewrite <- rev_app_distr, <- E. symmetry. apply rev_involutive.
  - apply Forall_rev. assumption.
Qed.

Lemma rstrip_idem (s : str) : rstrip (rstrip s) = rstrip s.
Proof. unfold rstrip. now rewrite rev_involutive, lstrip_idem. Qed.

Lemma rstrip_no_lead (s : str) : no_lead s -> no_lead (rstrip s).
Proof.
  intros H. destruct (rstrip_split s) as [sp [E _]].
  destruct (rstrip s) as [|c r]; [exact I|].
  rewrite E in H. exact H.
Qed.

Lemma strip_no_lead (s : str) : no_lead (strip s).
Proof. apply rstrip_no_lead, lstrip_no_lead. Qed.

Lemma strip_idem (s : str) : strip (strip s) = strip s.
Proof.
  unfold strip at 1. rewrite (lstrip_fixed (strip s)) by apply strip_no_lead.
  unfold strip. apply rstrip_idem.
Qed.

Lemma In_lstrip (c : ascii) (s : str) : In c (lstrip s) -> In c s.
Proof.
  destruct (lstrip_split s) as [sp [E _]]. intros H. rewrite E.
  apply in_or_app. now right.
Qed.

Lemma In_rstrip (c : ascii) (s : str) : In c (rstrip s) -> In c s.
Proof.
  destruct (rstrip_split s) as [sp [E _]]. intros H. rewrite E.
  apply in_or_app. now left.
Qed.

Lemma In_strip (c : ascii) (s : str) : In c (strip s) -> In c s.
Proof. intros H. now apply In_lstrip, In_rstrip. Qed.

Lemma contains_strip (c : ascii) (s : str) :
  contains c s = false -> contains c (strip s) = false.
Proof.
  rewrite !contains_false. intros H Hc. apply H. now apply In_strip.
Qed.

(** A string without white space is left as it is. *)
Lemma strip_solid (s : str) :
  forallb (fun c => negb (isspace c)) s = true -> strip s = s.
Proof.
  intros H. unfold strip, rstrip.
  assert (L : forall t, forallb (fun c => negb (isspace c)) t = true ->
                        lstrip t = t).
  { intros [|c r]; simpl; [reflexivity|]. intros Ht.
    apply andb_true_iff in Ht as [Hc _]. apply negb_true_iff in Hc.
    now rewrite Hc. }
  rewrite (L s H). rewrite L; [apply rev_involutive|].
  rewrite forallb_forall in *. intros x Hx. apply H. now apply in_rev.
Qed.

(** *** Character classes *)

Lemma isdecimal_isdigit (c : ascii) : isdecimal c = true -> isdigit c = true.
Proof. unfold isdigit. now intros ->. Qed.

Lemma isdigit_solid (c : ascii) :
  isdigit c = true ->
  isspace c = false /\ eqc c "_" = false /\ eqc c ":" = false
  /\ c <> "+"%char /\ c <> "-"%char.
Proof.
  destruct c as [[] [] [] [] [] [] [] []]; vm_compute;
    intros H; try discriminate H; repeat split; discriminate.
Qed.

Lemma isletter_plain (c : ascii) :
  isletter c = true -> isdigit c = false /\ eqc c ":" = false.
Proof.
  destruct c as [[] [] [] [] [] [] [] []]; vm_compute;
    intros H; try discriminate H; split; reflexivity.
Qed.

Lemma digit_value_nonneg (c : ascii) :
  isdecimal c = true -> (0 <= digit_value c)%Z.
Proof.
  unfold isdecimal, between, digit_value. intros H.
  apply andb_true_iff in H as [H _]. apply Nat.leb_le in H. lia.
Qed.

(** *** [int] *)

Lemma int_body_decimal (ds : str) :
  forallb isdecimal ds = true ->
  forall b acc,
    int_body b acc ds = if b || nonempty ds then Some (shift acc ds) else None.
Proof.
  induction ds as [|c r IH]; simpl; intros H b acc.
  - now rewrite orb_false_r.
  - apply andb_true_iff in H as [Hc Hr]. rewrite Hc, orb_true_r.
    now rewrite (IH Hr).
Qed.

Lemma int_body_not_decimal (s : str) :
  forallb isdigit s = true -> forallb isdecimal s = false ->
  forall b acc, int_body b acc s = None.
Proof.
  induction s as [|c r IH]; simpl; intros Hd Hn b acc; [discriminate|].
  apply andb_true_iff in Hd as [Hc Hr].
  destruct (isdecimal c) eqn:E; simpl in Hn.
  - now apply IH.
  - destruct (isdigit_solid c Hc) as (_ & -> & _). reflexivity.
Qed.

Lemma int_body_nonneg (s : str) :
  forall b acc z, (0 <= acc)%Z -> int_body b acc s = Some z -> (0 <= z)%Z.
Proof.
  induction s as [|c r IH]; simpl; intros b acc z Hacc H.
  - destruct b; [|discriminate]. injection H as <-. assumption.
  - destruct (isdecimal c) eqn:E.
    + apply IH in H; [assumption|].
      pose proof (digit_value_nonneg c E). lia.
    + destruct (eqc c "_"); [|discriminate].
      destruct b; [|discriminate]. eauto.
Qed.

(** A string of digits is read by [int] exactly when it is a plain
    decimal numeral. *)
Lemma int_of_digits (s : str) :
  forallb isdigit s = true ->
  int s = if Range.row_ok s then Some (numeral s) else None.
Proof.
  intros H. unfold int.
  assert (Hs : strip s = s).
  { apply strip_solid. rewrite forallb_forall in *. intros c Hc.
    destruct (isdigit_solid c (H c Hc)) as (-> & _). reflexivity. }
  rewrite Hs. unfold Range.row_ok.
  assert (Hb : int_body false 0 s =
               if nonempty s && forallb isdecimal s
               then Some (numeral s) else None).
  { destruct (forallb isdecimal s) eqn:E.
    - rewrite (int_body_decimal s E). simpl. now rewrite andb_true_r.
    - rewrite andb_false_r. now apply int_body_not_decimal. }
  destruct s as [|c r]; [exact Hb|].
  simpl in H. apply andb_true_iff in H as [Hc _].
  destruct (isdigit_solid c Hc) as (_ & _ & _ & Hp & Hm).
  destruct c as [[] [] [] [] [] [] [] []]; try exact Hb; congruence.
Qed.

Lemma row_ok_digits (s : str) :
  Range.row_ok s = true -> forallb isdigit s = true.
Proof.
  unfold Range.row_ok. intros H. apply andb_true_iff in H as [_ H].
  rewrite forallb_forall in *. intros c Hc. now apply isdecimal_isdigit, H.
Qed.

Lemma int_numeral (s : str) :
  Range.row_ok s = true -> int s = Some (numeral s).
Proof.
  intros H. rewrite int_of_digits by now apply row_ok_digits. now rewrite H.
Qed.

(** Without a minus sign in the text, [int] gives no negative number. *)
Lemma int_nonneg (s : str) (z : Z) :
  contains "-" s = false -> int s = Some z -> (0 <= z)%Z.
Proof.
  intros Hm. unfold int.
  assert (Hs : ~ In "-"%char (strip s)).
  { intros Hin. apply In_strip in Hin. now apply contains_false in Hm. }
  destruct (strip s) as [|c r]; [discriminate|].
  assert (Hc : c <> "-"%char) by (intros ->; apply Hs; now left).
  assert (G : forall t, int_body false 0 t = Some z -> (0 <= z)%Z)
    by (intros t; apply int_body_nonneg; lia).
  destruct c as [[] [] [] [] [] [] [] []]; try apply G; congruence.
Qed.

End StrFacts.

(** ** RangeSpecParser *)

Module RangeFacts.

Import StrFacts Range.

(** Past the colon, digits go to [end_row], colons are dropped and the rest
    goes to [end_col]. *)
Lemma scan_after (s : str) :
  forall st, parsing_end_col st = true ->
    fold_left scan_char s st =
    mk_scan (start_col st) (start_row st)
            (end_col st ++ filter other s)
            (end_row st ++ filter isdigit s) true.
Proof.
  induction s as [|c r IH]; intros [a b x y p] Hp; simpl in *; subst p.
  - now rewrite !app_nil_r.
  - unfold scan_char, other. simpl.
    destruct (isdigit c) eqn:Hd; simpl.
    + rewrite IH by reflexivity. simpl. now rewrite <- app_assoc.
    + destruct (eqc c ":") eqn:Hc; simpl.
      * now rewrite IH.
      * rewrite IH by reflexivity. simpl. now rewrite <- app_assoc.
Qed.

(** Before it, digits go to [start_row] and the rest to [start_col]. *)
Lemma scan_before (s : str) :
  forall st, parsing_end_col st = false ->
    let st' := fold_left scan_char s st in
    start_col st' = start_col st
                    ++ filter (fun c => negb (isdigit c)) (before_colon s)
    /\ start_row st' = start_row st ++ filter isdigit (before_colon s)
    /\ end_col st' = end_col st ++ filter other (after_colon s)
    /\ end_row st' = end_row st ++ filter isdigit (after_colon s).
Proof.
  induction s as [|c r IH]; intros [a b x y p] Hp; simpl in *; subst p.
  - now rewrite !app_nil_r.
  - unfold scan_char at 2 4 6 8. simpl.
    destruct (isdigit c) eqn:Hd; simpl.
    + destruct (isdigit_solid c Hd) as (_ & _ & -> & _). simpl. rewrite Hd.
      destruct (IH (mk_scan a (b ++ [c]) x y false) eq_refl)
        as (-> & -> & -> & ->). simpl. now rewrite <- app_assoc.
    + destruct (eqc c ":") eqn:Hc; simpl.
      * rewrite scan_after by reflexivity. simpl. now rewrite !app_nil_r.
      * rewrite Hd. simpl.
        destruct (IH (mk_scan (a ++ [c]) b x y false) eq_refl)
          as (-> & -> & -> & ->). simpl. now rewrite <- app_assoc.
Qed.

Lemma scan_all_fields (s : str) :
  start_col (scan_all s) = filter (fun c => negb (isdigit c)) (before_colon s)
  /\ start_row (scan_all s) = filter isdigit (before_colon s)
  /\ end_col (scan_all s) = filter other (after_colon s)
  /\ end_row (scan_all s) = filter isdigit (after_colon s).
Proof. exact (scan_before s scan0 eq_refl). Qed.

Lemma forallb_filter_same (p : ascii -> bool) (s : str) :
  forallb p (filter p s) = true.
Proof.
  apply forallb_forall. intros c Hc. now apply filter_In in Hc.
Qed.

(** What the parser returns, from the digits on each side of the first
    colon. *)
Lemma parse_by_rows (s : str) :
  excel_range_to_params s =
  let sr := filter isdigit (before_colon s) in
  let er := filter isdigit (after_colon s) in
  if row_ok sr then
    if row_ok er then
      Ok (mk_params (filter (fun c => negb (isdigit c)) (before_colon s)
                     ++ lit ":" ++ filter other (after_colon s))
                    (numeral sr - 1) (numeral er - (numeral sr - 1)))
    else Raise (invalid_literal er)
  else Raise (invalid_literal sr).
Proof.
  unfold excel_range_to_params, int_or_raise.
  destruct (scan_all_fields s) as (-> & -> & -> & ->).
  rewrite !int_of_digits by apply forallb_filter_same.
  cbv zeta.
  destruct (row_ok (filter isdigit (before_colon s))); simpl; [|reflexivity].
  destruct (row_ok (filter isdigit (after_colon s))); reflexivity.
Qed.

Lemma filter_all (p : ascii -> bool) (s : str) :
  forallb p s = true -> filter p s = s.
Proof.
  induction s as [|c r IH]; simpl; [reflexivity|]. intros H.
  apply andb_true_iff in H as [-> Hr]. now rewrite IH.
Qed.

Lemma filter_none (p : ascii -> bool) (s : str) :
  forallb (fun c => negb (p c)) s = true -> filter p s = [].
Proof.
  induction s as [|c r IH]; simpl; [reflexivity|]. intros H.
  apply andb_true_iff in H as [Hc Hr]. apply negb_true_iff in Hc.
  now rewrite Hc, IH.
Qed.

Lemma forallb_impl (p q : ascii -> bool) (s : str) :
  (forall c, p c = true -> q c = true) ->
  forallb p s = true -> forallb q s = true.
Proof.
  intros Hpq H. rewrite forallb_forall in *. auto.
Qed.

Lemma before_colon_app (a b : str) :
  contains ":" a = false -> before_colon (a ++ ":"%char :: b) = a.
Proof.
  induction a as [|c r IH]; intros H; [reflexivity|].
  rewrite contains_cons in H. apply orb_false_iff in H as [Hc Hr].
  apply eqc_neq in Hc. simpl.
  replace (eqc c ":") with false by (symmetry; apply eqc_neq; congruence).
  now rewrite IH.
Qed.

Lemma after_colon_app (a b : str) :
  contains ":" a = false -> after_colon (a ++ ":"%char :: b) = b.
Proof.
  induction a as [|c r IH]; intros H; [reflexivity|].
  rewrite contains_cons in H. apply orb_false_iff in H as [Hc Hr].
  apply eqc_neq in Hc. simpl.
  replace (eqc c ":") with false by (symmetry; apply eqc_neq; congruence).
  now rewrite IH.
Qed.

Lemma row_ok_decimal (s : str) :
  row_ok s = true -> forallb isdecimal s = true.
Proof. unfold row_ok. intros H. now apply andb_true_iff in H. Qed.

Lemma letters_then_digits (l d : str) :
  forallb isletter l = true -> forallb isdecimal d = true ->
  filter isdigit (l ++ d) = d
  /\ filter (fun c => negb (isdigit c)) (l ++ d) = l
  /\ filter other (l ++ d) = l
  /\ contains ":" (l ++ d) = false.
Proof.
  intros Hl Hd.
  assert (Hd' : forallb isdigit d = true)
    by (revert Hd; apply forallb_impl, isdecimal_isdigit).
  rewrite !filter_app, contains_app. repeat split.
  - rewrite (filter_all _ d Hd'), filter_none; [reflexivity|].
    revert Hl. apply forallb_impl. intros c Hc.
    now destruct (isletter_plain c Hc) as [-> _].
  - rewrite filter_all, filter_none; [apply app_nil_r| |].
    + revert Hd'. apply forallb_impl. intros c ->. reflexivity.
    + revert Hl. apply forallb_impl. intros c Hc.
      now destruct (isletter_plain c Hc) as [-> _].
  - rewrite filter_all, filter_none; [apply app_nil_r| |].
    + revert Hd'. apply forallb_impl. unfold other. intros c ->. reflexivity.
    + revert Hl. apply forallb_impl. unfold other. intros c Hc.
      now destruct (isletter_plain c Hc) as [-> ->].
  - apply orb_false_iff. split; apply contains_false; intros Hin.
    + rewrite forallb_forall in Hl. apply Hl in Hin.
      now destruct (isletter_plain _ Hin).
    + rewrite forallb_forall in Hd'. apply Hd' in Hin.
      now destruct (isdigit_solid _ Hin) as (_ & _ & ? & _).
Qed.

(** The parser on a string of the shape letters, digits, colon, letters,
    digits. *)
Lemma parse_shape (sc sr ec er : str) :
  forallb isletter sc = true -> row_ok sr = true ->
  forallb isletter ec = true -> row_ok er = true ->
  excel_range_to_params (sc ++ sr ++ lit ":" ++ ec ++ er) =
  Ok (mk_params (sc ++ lit ":" ++ ec)
                (numeral sr - 1) (numeral er - (numeral sr - 1))).
Proof.
  intros Hsc Hsr Hec Her.
  destruct (letters_then_digits sc sr Hsc (row_ok_decimal sr Hsr))
    as (F1 & F2 & _ & C1).
  destruct (letters_then_digits ec er Hec (row_ok_decimal er Her))
    as (G1 & _ & G3 & _).
  rewrite parse_by_rows. cbv zeta.
  replace (sc ++ sr ++ lit ":" ++ ec ++ er)
    with ((sc ++ sr) ++ ":"%char :: (ec ++ er))
    by (now rewrite <- app_assoc).
  rewrite before_colon_app, after_colon_app by assumption.
  now rewrite F1, F2, G1, G3, Hsr, Her.
Qed.

Lemma takewhile_dropwhile (p : ascii -> bool) (s : str) :
  s = takewhile p s ++ dropwhile p s /\ forallb p (takewhile p s) = true.
Proof.
  induction s as [|c r [E H]]; simpl; [now split|].
  destruct (p c) eqn:Hc; simpl; [|now split].
  rewrite Hc, H. split; [now f_equal | reflexivity].
Qed.

(** A string of the spec's shape splits into its four parts. *)
Lemma matches_shape (s : str) :
  matches_range_form s = true ->
  exists sc sr ec er,
    s = sc ++ sr ++ lit ":" ++ ec ++ er
    /\ forallb isletter sc = true /\ row_ok sr = true
    /\ forallb isletter ec = true /\ row_ok er = true.
Proof.
  unfold matches_range_form. intros H.
  destruct (takewhile_dropwhile isletter s) as [E1 L1].
  destruct (takewhile_dropwhile isdecimal (dropwhile isletter s)) as [E2 D1].
  destruct (dropwhile isdecimal (dropwhile isletter s)) as [|c r3] eqn:R;
    [discriminate|].
  destruct (eqc c ":") eqn:Hc;
    [apply eqc_eq in Hc; subst c
    | destruct c as [[] [] [] [] [] [] [] []]; discriminate].
  destruct (takewhile_dropwhile isletter r3) as [E3 L2].
  destruct (takewhile_dropwhile isdecimal (dropwhile isletter r3)) as [E4 D2].
  repeat (apply andb_true_iff in H; destruct H as [H ?]).
  destruct (dropwhile isdecimal (dropwhile isletter r3)); [|discriminate].
  rewrite app_nil_r in E4.
  exists (takewhile isletter s), (takewhile isdecimal (dropwhile isletter s)),
    (takewhile isletter r3), (takewhile isdecimal (dropwhile isletter r3)).
  unfold row_ok. repeat split; try assumption.
  - rewrite E1 at 1. f_equal. rewrite E2 at 1. f_equal. simpl. f_equal.
    rewrite E3 at 1. f_equal. exact E4.
  - now apply andb_true_iff.
  - now apply andb_true_iff.
Qed.

End RangeFacts.

(** ** SheetSelector *)

Module SelectorFacts.

Import StrFacts Range Selector.

Lemma isdecimal_plain (c : ascii) :
  isdecimal c = true -> eqc "-" c = false /\ eqc "," c = false.
Proof.
  destruct c as [[] [] [] [] [] [] [] []]; vm_compute;
    intros H; try discriminate H; split; reflexivity.
Qed.

Lemma numeral_plain (n : str) :
  row_ok n = true -> contains "-" n = false /\ contains "," n = false.
Proof.
  intros H. apply RangeFacts.row_ok_decimal in H.
  rewrite forallb_forall in H.
  split; apply contains_false; intros Hin; apply H in Hin;
    destruct (isdecimal_plain _ Hin) as [E1 E2]; discriminate.
Qed.

Lemma int_or_raise_numeral (n : str) :
  row_ok n = true -> int_or_raise n = Ok (numeral n).
Proof. intros H. unfold int_or_raise. now rewrite int_numeral. Qed.

Lemma py_range_inclusive (len : nat) :
  forall start,
    map (fun k => (start + Z.of_nat k)%Z) (seq 0 len) = inclusive start len.
Proof.
  induction len as [|n IH]; intros start; [reflexivity|].
  simpl. rewrite Z.add_0_r. f_equal.
  rewrite <- seq_shift, map_map, <- IH.
  apply map_ext. intros k. lia.
Qed.

Lemma number_item_token (t : number_token) :
  number_token_ok t ->
  number_item (number_token_text t) = Ok (number_token_indices t).
Proof.
  destruct t as [n | a b]; simpl.
  - intros H. unfold number_item.
    destruct (numeral_plain n H) as [-> _].
    now rewrite int_or_raise_numeral.
  - intros [Ha Hb]. unfold number_item.
    destruct (numeral_plain a Ha) as [Ma _].
    destruct (numeral_plain b Hb) as [Mb _].
    rewrite contains_app, contains_cons, eqc_refl, orb_true_r.
    rewrite split_app, (split_none _ b) by assumption.
    rewrite !int_or_raise_numeral by assumption. simpl.
    unfold py_range. now rewrite py_range_inclusive.
Qed.

Lemma numbers_loop_tokens (toks : list number_token) :
  Forall number_token_ok toks ->
  forall sheets,
    numbers_loop (map number_token_text toks) sheets =
    Ok (sheets ++ flat_map number_token_indices toks).
Proof.
  induction 1 as [|t ts Ht Hts IH]; intros sheets; simpl.
  - now rewrite app_nil_r.
  - rewrite number_item_token by assumption. simpl.
    now rewrite IH, app_assoc.
Qed.

Lemma number_token_no_comma (t : number_token) :
  number_token_ok t -> contains "," (number_token_text t) = false.
Proof.
  destruct t as [n | a b]; simpl.
  - intros H. now destruct (numeral_plain n H).
  - intros [Ha Hb]. rewrite contains_app, contains_cons.
    destruct (numeral_plain a Ha) as [_ ->].
    destruct (numeral_plain b Hb) as [_ ->]. reflexivity.
Qed.

(** The number selector on a list of well-formed tokens. *)
Lemma parse_numbers_tokens (toks : list number_token) :
  toks <> [] -> Forall number_token_ok toks ->
  parse_sheet_numbers (join (lit ",") (map number_token_text toks)) =
  Ok (map (fun i => mk_spec (Index i) [])
          (flat_map number_token_indices toks)).
Proof.
  intros Hne Hok. unfold parse_sheet_numbers.
  change (lit ",") with [","%char].
  rewrite split_join.
  - now rewrite numbers_loop_tokens.
  - destruct toks; [contradiction | discriminate].
  - apply Forall_map. revert Hok. apply Forall_impl.
    apply number_token_no_comma.
Qed.

(** *** No negative index comes out of the number selector *)

Lemma py_range_lower (start stop : Z) :
  Forall (fun i => (start <= i)%Z) (py_range start stop).
Proof.
  unfold py_range. apply Forall_map, Forall_forall. intros k _. lia.
Qed.

Lemma int_or_raise_nonneg (s : str) (z : Z) :
  contains "-" s = false -> int_or_raise s = Ok z -> (0 <= z)%Z.
Proof.
  unfold int_or_raise. intros Hm H.
  destruct (int s) as [v|] eqn:E; [|discriminate].
  injection H as <-. eapply int_nonneg; eassumption.
Qed.

Lemma number_item_nonneg (item : str) (added : list Z) :
  number_item item = Ok added -> Forall (fun i => (0 <= i)%Z) added.
Proof.
  unfold number_item. destruct (contains "-" item) eqn:Hm.
  - pose proof (split_parts_clean "-" item) as Hclean.
    destruct (split "-" item) as [|a [|b [|c rest]]]; try discriminate.
    + inversion Hclean as [|? ? Ha _]; subst.
      destruct (int_or_raise a) as [start|] eqn:Ea; [|discriminate].
      destruct (int_or_raise b) as [stop|]; [|discriminate].
      simpl. intros H. injection H as <-.
      apply int_or_raise_nonneg in Ea; [|assumption].
      eapply Forall_impl; [|apply py_range_lower]. simpl. intros; lia.
    + destruct (int_or_raise a); [|discriminate].
      destruct (int_or_raise b); [|discriminate].
      destruct (int_or_raise c); discriminate.
  - destruct (int_or_raise item) as [n|] eqn:E; [|discriminate].
    simpl. intros H. injection H as <-.
    constructor; [|constructor]. eapply int_or_raise_nonneg; eassumption.
Qed.

Lemma numbers_loop_nonneg (items : list str) :
  forall sheets out,
    Forall (fun i => (0 <= i)%Z) sheets ->
    numbers_loop items sheets = Ok out ->
    Forall (fun i => (0 <= i)%Z) out.
Proof.
  induction items as [|item rest IH]; simpl; intros sheets out Hs H.
  - now injection H as <-.
  - destruct (number_item item) as [added|] eqn:E; [|discriminate].
    simpl in H. apply IH in H; [assumption|].
    apply Forall_app. split; [assumption|].
    now apply number_item_nonneg with item.
Qed.

(** Every SheetSpec of a number selector is an index that is not negative,
    without a range. *)
Lemma parse_numbers_nonneg (s : str) (specs : list sheet_spec) :
  parse_sheet_numbers s = Ok specs ->
  Forall (fun sp => exists i, sp = mk_spec (Index i) [] /\ (0 <= i)%Z) specs.
Proof.
  unfold parse_sheet_numbers.
  destruct (numbers_loop (split "," s) []) as [sheets|] eqn:E;
    [|discriminate].
  simpl. intros H. injection H as <-.
  apply numbers_loop_nonneg in E; [|constructor].
  apply Forall_map. revert E. apply Forall_impl. intros i Hi. now exists i.
Qed.

(** *** The name selector *)

Lemma plain_parts (s : str) :
  plain s = true -> contains "," s = false /\ contains "!" s = false.
Proof.
  unfold plain. intros H. apply andb_true_iff in H as [H1 H2].
  now apply negb_true_iff in H1, H2.
Qed.

Lemma name_token_no_comma (t : name_token) :
  name_token_plain t = true -> contains "," (name_token_text t) = false.
Proof.
  destruct t as [name | name r]; simpl; intros H.
  - now destruct (plain_parts name H).
  - apply andb_true_iff in H as [Hn Hr].
    rewrite contains_app, contains_cons.
    destruct (plain_parts name Hn) as [-> _].
    destruct (plain_parts r Hr) as [-> _]. reflexivity.
Qed.

Lemma name_item_token (t : name_token) :
  name_token_plain t = true ->
  name_item (name_token_text t) =
  match t with
  | Bare _ => Ok (name_token_spec t)
  | Ranged _ r => if range_checker r then Ok (name_token_spec t)
                  else Raise (invalid_range r)
  end.
Proof.
  destruct t as [name | name r]; simpl; intros H; unfold name_item.
  - now destruct (plain_parts name H) as [_ ->].
  - apply andb_true_iff in H as [Hn Hr].
    destruct (plain_parts name Hn) as [_ Bn].
    destruct (plain_parts r Hr) as [_ Br].
    rewrite contains_app, contains_cons, eqc_refl, orb_true_r.
    rewrite split_app, (split_none _ r) by assumption.
    now destruct (range_checker r).
Qed.

Lemma names_loop_valid (toks : list name_token) :
  forallb name_token_plain toks = true ->
  forallb name_token_valid toks = true ->
  forall sheets,
    names_loop (map name_token_text toks) sheets =
    Ok (sheets ++ map name_token_spec toks).
Proof.
  induction toks as [|t ts IH]; simpl; intros Hp Hv sheets.
  - now rewrite app_nil_r.
  - apply andb_true_iff in Hp as [Hp Hps].
    apply andb_true_iff in Hv as [Hv Hvs].
    rewrite name_item_token by assumption.
    destruct t as [name | name r]; simpl in *.
    + rewrite IH by assumption. now rewrite <- app_assoc.
    + rewrite Hv. simpl. rewrite IH by assumption. now rewrite <- app_assoc.
Qed.

Lemma names_loop_invalid (pre post : list name_token) (name r : str) :
  forallb name_token_plain (pre ++ Ranged name r :: post) = true ->
  forallb name_token_valid pre = true ->
  range_checker r = false ->
  forall sheets,
    names_loop (map name_token_text (pre ++ Ranged name r :: post)) sheets =
    Raise (invalid_range r).
Proof.
  induction pre as [|t ts IH]; intros Hp Hv Hr sheets;
    cbn [app map names_loop]; simpl in Hp, Hv.
  - apply andb_true_iff in Hp as [Hp _].
    rewrite (name_item_token (Ranged name r)) by exact Hp.
    now rewrite Hr.
  - apply andb_true_iff in Hp as [Hp Hps].
    apply andb_true_iff in Hv as [Hv Hvs].
    rewrite name_item_token by assumption.
    destruct t as [name' | name' r']; simpl in *.
    + now apply IH.
    + rewrite Hv. simpl. now apply IH.
Qed.

Lemma split_name_tokens (toks : list name_token) :
  toks <> [] -> forallb name_token_plain toks = true ->
  split "," (join (lit ",") (map name_token_text toks)) =
  map name_token_text toks.
Proof.
  intros Hne Hp. change (lit ",") with [","%char]. apply split_join.
  - destruct toks; [contradiction | discriminate].
  - apply Forall_map, Forall_forall. intros t Ht.
    apply name_token_no_comma. rewrite forallb_forall in Hp. auto.
Qed.

End SelectorFacts.

(** ** TableNormalizer *)

Module RenderFacts.

Import StrFacts Render.

(** *** Trimming *)

Lemma clean_line_idem (line : str) :
  clean_line (clean_line line) = clean_line line.
Proof.
  unfold clean_line at 2 3.
  destruct (contains pipe line) eqn:Hp.
  - destruct (split_two pipe line Hp) as (p & q & qs & E).
    pose proof (split_parts_clean pipe line) as Hclean.
    rewrite E in *. cbv zeta. unfold clean_line.
    change (map strip (p :: q :: qs))
      with (strip p :: strip q :: map strip qs).
    rewrite contains_join_two. cbv zeta.
    rewrite split_join.
    + f_equal. change (strip p :: strip q :: map strip qs)
        with (map strip (p :: q :: qs)).
      rewrite map_map. apply map_ext. intros s. apply strip_idem.
    + discriminate.
    + change (strip p :: strip q :: map strip qs)
        with (map strip (p :: q :: qs)).
      apply Forall_map. revert Hclean. apply Forall_impl.
      intros s. apply contains_strip.
  - unfold clean_line. now rewrite Hp.
Qed.

(** Trimming drops the white space next to a separator. *)
Example clean_line_trims :
  clean_line (lit "|  a b  | c |") = lit "|a b|c|"
  /\ clean_line (lit "|a b|c|") = lit "|a b|c|".
Proof. split; reflexivity. Qed.


(** *** Escaping *)


Lemma replace_absent (old : ascii) (new s : str) :
  contains old s = false -> replace old new s = s.
Proof.
  induction s as [|c r IH]; intros H; [reflexivity|].
  rewrite contains_cons in H. apply orb_false_iff in H as [Hc Hr].
  apply eqc_neq in Hc. simpl.
  replace (eqc c old) with false by (symmetry; apply eqc_neq; congruence).
  now rewrite IH.
Qed.

Lemma escaped_no_newline (s : str) :
  contains newline (replace newline marker s) = false.
Proof.
  induction s as [|c r IH]; cbn [replace]; [reflexivity|].
  destruct (eqc c newline) eqn:Hc.
  - rewrite contains_app, IH. reflexivity.
  - rewrite contains_cons, IH. apply eqc_neq in Hc.
    replace (eqc newline c) with false
      by (symmetry; apply eqc_neq; congruence). reflexivity.
Qed.



(** *** Undoing the escape *)

Lemma has_marker_tail (c : ascii) (r : str) :
  has_marker (c :: r) = false -> has_marker r = false.
Proof.
  destruct r as [|c2 [|c3 [|c4 r']]]; try reflexivity.
  intros H. change (is_marker c c2 c3 c4 || has_marker (c2 :: c3 :: c4 :: r')
                    = false) in H.
  now apply orb_false_iff in H.
Qed.

(** An escaped string that starts with a character other than the one the
    marker starts with comes from a string that starts with it. *)
Lemma escaped_head (x : ascii) (r t : str) :
  replace newline marker r = x :: t -> x <> "<"%char ->
  exists r0, r = x :: r0 /\ replace newline marker r0 = t.
Proof.
  destruct r as [|c r0]; simpl; [discriminate|].
  destruct (eqc c newline).
  - simpl. intros H Hx. injection H as <- _. contradiction.
  - intros H _. injection H as -> <-. now exists r0.
Qed.

Lemma is_marker_eq (c1 c2 c3 c4 : ascii) :
  is_marker c1 c2 c3 c4 = true ->
  c1 = "<"%char /\ c2 = "b"%char /\ c3 = "r"%char /\ c4 = ">"%char.
Proof.
  unfold is_marker. intros H.
  repeat (apply andb_true_iff in H; destruct H as [H ?]).
  repeat split; now apply eqc_eq.
Qed.

Lemma unescape_escape (s : str) :
  has_marker s = false -> unescape (replace newline marker s) = s.
Proof.
  induction s as [|c r IH]; intros H; [reflexivity|].
  pose proof (IH (has_marker_tail c r H)) as IHr.
  simpl. destruct (eqc c newline) eqn:Hc.
  - apply eqc_eq in Hc. subst c. simpl. now rewrite IHr.
  - destruct (replace newline marker r) as [|c2 [|c3 [|c4 r']]] eqn:E;
      try (simpl; simpl in IHr; now rewrite IHr).
    change (unescape (c :: c2 :: c3 :: c4 :: r'))
      with (if is_marker c c2 c3 c4 then newline :: unescape r'
            else c :: unescape (c2 :: c3 :: c4 :: r')).
    destruct (is_marker c c2 c3 c4) eqn:M; [|now rewrite IHr].
    exfalso. apply is_marker_eq in M as (-> & -> & -> & ->).
    apply escaped_head in E as (r1 & -> & E); [|discriminate].
    apply escaped_head in E as (r2 & -> & E); [|discriminate].
    apply escaped_head in E as (r3 & -> & E); [|discriminate].
    discriminate H.
Qed.

End RenderFacts.

(** ** BatchDriver and OutputSink *)

Module DriverFacts.

Import StrFacts Selector Render Driver.

(** *** Resolving an index *)

Lemma nth_last_index {A} (l : list A) (d : A) :
  l <> [] -> nth (List.length l - 1) l d = last l d.
Proof.
  induction l as [|x r IH]; intros Hne; [contradiction|].
  destruct r as [|y r']; [reflexivity|].
  change (last (x :: y :: r') d) with (last (y :: r') d).
  rewrite <- IH by discriminate. simpl. now rewrite Nat.sub_0_r.
Qed.

Lemma py_index_inside {A} (l : list A) (k : Z) (d : A) :
  (0 <= k < Z.of_nat (List.length l))%Z ->
  py_index l k = Some (nth (Z.to_nat k) l d).
Proof.
  intros H. unfold py_index.
  replace ((0 <=? k) && (k <? Z.of_nat (List.length l)))%Z with true
    by (symmetry; apply andb_true_iff; split;
        [apply Z.leb_le | apply Z.ltb_lt]; lia).
  apply nth_error_nth'. lia.
Qed.

Lemma py_index_from_end {A} (l : list A) (k : Z) (d : A) :
  (- Z.of_nat (List.length l) <= k < 0)%Z ->
  py_index l k = Some (nth (Z.to_nat (Z.of_nat (List.length l) + k)) l d).
Proof.
  intros H. unfold py_index.
  replace ((0 <=? k) && (k <? Z.of_nat (List.length l)))%Z with false
    by (symmetry; apply andb_false_iff; left; apply Z.leb_gt; lia).
  replace ((- Z.of_nat (List.length l) <=? k) && (k <? 0))%Z with true
    by (symmetry; apply andb_true_iff; split;
        [apply Z.leb_le | apply Z.ltb_lt]; lia).
  apply nth_error_nth'. lia.
Qed.

Lemma py_index_outside {A} (l : list A) (k : Z) :
  (Z.of_nat (List.length l) <= k \/ k < - Z.of_nat (List.length l))%Z ->
  py_index l k = None.
Proof.
  intros H. unfold py_index.
  replace ((0 <=? k) && (k <? Z.of_nat (List.length l)))%Z with false
    by (symmetry; apply andb_false_iff;
        destruct H; [right; apply Z.ltb_ge | left; apply Z.leb_gt]; lia).
  replace ((- Z.of_nat (List.length l) <=? k) && (k <? 0))%Z with false
    by (symmetry; apply andb_false_iff;
        destruct H; [right; apply Z.ltb_ge | left; apply Z.leb_gt]; lia).
  reflexivity.
Qed.

(** An index fails to resolve exactly when it lies past the last sheet or
    too far before the first. *)
Lemma resolve_raises_iff (names : list str) (i : Z) :
  raises (resolve names (Index i)) = true <->
  (Z.of_nat (List.length names) < i \/ i <= - Z.of_nat (List.length names))%Z.
Proof.
  unfold resolve. split.
  - intros H.
    destruct (Z_lt_dec (Z.of_nat (List.length names)) i) as [|G1]; [now left|].
    destruct (Z_le_dec i (- Z.of_nat (List.length names))) as [|G2];
      [now right|].
    exfalso. destruct (Z_lt_dec (i - 1) 0).
    + rewrite (py_index_from_end names (i - 1) []) in H by lia. discriminate.
    + rewrite (py_index_inside names (i - 1) []) in H by lia. discriminate.
  - intros H. rewrite py_index_outside by lia. reflexivity.
Qed.

Lemma resolve_from_end (names : list str) (i : Z) :
  (- Z.of_nat (List.length names) < i <= 0)%Z ->
  resolve names (Index i) =
  Ok (nth (Z.to_nat (Z.of_nat (List.length names) + i - 1)) names []).
Proof.
  intros H. unfold resolve.
  rewrite (py_index_from_end names (i - 1) []) by lia.
  do 3 f_equal. lia.
Qed.

Lemma resolve_zero (names : list str) :
  names <> [] -> resolve names (Index 0) = Ok (last names []).
Proof.
  intros Hne. rewrite resolve_from_end.
  - rewrite <- (nth_last_index names []) by assumption.
    do 2 f_equal. lia.
  - destruct names; [contradiction|]. simpl. lia.
Qed.

(** *** The sink *)

(** Where the strict encoder succeeds, the replacing one gives the same
    bytes. *)
Lemma encode_replace_strict (enc : ascii -> option str) (s bytes : str) :
  encode_strict enc s = Some bytes -> encode_replace enc s = bytes.
Proof.
  revert bytes. induction s as [|c r IH]; simpl; intros bytes H.
  - now injection H as <-.
  - destruct (enc c) as [b|]; [|discriminate].
    destruct (encode_strict enc r) as [bs|]; [|discriminate].
    injection H as <-. now rewrite (IH bs).
Qed.

Section Facts.

Context {W : World}.

Lemma post_failed (data file : str) (h : history) (e : exn) :
  upload_failure
    (requests_post (h ++ [Posted api_url bearer file data])
                   api_url bearer file data) = Some e ->
  post_markdown_to_api data file h =
  (Ok tt,
   h ++ [Posted api_url bearer file data; Log ERROR (PostFailed file e)]).
Proof.
  unfold post_markdown_to_api, upload_failure, raise_for_status. unfold_m.
  destruct (requests_post _ _ _ _ _) as [status | x].
  - destruct ((400 <=? status) && (status <? 600))%Z; [|discriminate].
    intros H. injection H as <-. simpl. now rewrite <- app_assoc.
  - destruct x; try discriminate.
    intros H. injection H as <-. simpl. now rewrite <- app_assoc.
Qed.

(** A request adds no file to the history. *)
Lemma post_events (data file : str) (h : history) :
  exists evs,
    snd (post_markdown_to_api data file h) = h ++ evs
    /\ forallb (fun ev => negb (is_file_event ev)) evs = true.
Proof.
  unfold post_markdown_to_api, raise_for_status. unfold_m.
  destruct (requests_post _ _ _ _ _) as [status | x].
  - destruct ((400 <=? status) && (status <? 600))%Z.
    + eexists. split; [simpl; rewrite <- app_assoc; reflexivity | reflexivity].
    + eexists. split; [simpl; rewrite <- app_assoc; reflexivity | reflexivity].
  - destruct x;
      try (eexists; split; [simpl; reflexivity | reflexivity]).
    eexists. split; [simpl; rewrite <- app_assoc; reflexivity | reflexivity].
Qed.

Lemma save_upload_only (markdown_array : list str)
    (output_file encoding : str) (h : history) :
  save_markdown markdown_array output_file encoding true false h =
  post_markdown_to_api (join [newline] markdown_array)
                       (basename output_file) h.
Proof. reflexivity. Qed.

Lemma save_without_file (markdown_array : list str)
    (output_file encoding : str) (upload save_as_file : bool) (h : history) :
  save_as_file || negb upload = false ->
  exists evs,
    snd (save_markdown markdown_array output_file encoding
                       upload save_as_file h) = h ++ evs
    /\ forallb (fun ev => negb (is_file_event ev)) evs = true.
Proof.
  intros H. apply orb_false_iff in H as [-> H].
  apply negb_false_iff in H. subst upload.
  rewrite save_upload_only. apply post_events.
Qed.

Lemma save_with_file (markdown_array : list str)
    (output_file encoding : str) (upload save_as_file : bool) (h : history)
    (enc : ascii -> option str) :
  save_as_file || negb upload = true ->
  open_file h output_file = Ok tt ->
  codec encoding = Some enc ->
  write_file (h ++ [FileOpened output_file]) output_file
             (encode_replace enc (join [newline] markdown_array)) = Ok tt ->
  save_markdown markdown_array output_file encoding upload save_as_file h =
  (if upload
   then post_markdown_to_api (join [newline] markdown_array)
                             (basename output_file)
   else ret tt)
    (h ++ [FileOpened output_file;
           FileWritten output_file
             (encode_replace enc (join [newline] markdown_array));
           Log INFO (SavedFile output_file encoding)]).
Proof.
  intros Hf Ho Hc Hw. unfold save_markdown. rewrite Hf.
  unfold write_text. rewrite Hc. unfold_m. rewrite Ho, Hw.
  rewrite <- !app_assoc. reflexivity.
Qed.

(** *** The loop *)





Lemma process_returns (input_file output_file : str)
    (sheets : list sheet_spec) (encoding : str)
    (upload save_as_file : bool) (h : history) :
  fst (process_excel_to_markdown input_file output_file sheets encoding
                                 upload save_as_file h) = Ok tt.
Proof.
  unfold process_excel_to_markdown, try_catch.
  destruct (bindM _ _ h) as [[[] | e] h1]; [reflexivity|].
  destruct e; reflexivity.
Qed.

(** When [pd.errors.XLRDError] does not evaluate, the first sheet whose body
    raises ends the loop: the sheets after it are not attempted, and the
    outer handler logs the [AttributeError]. *)
Lemma handler_lookup_fails (xls : workbook)
    (input_file output_file : str) (before after : list sheet_spec)
    (spec : sheet_spec) (encoding : str) (upload save_as_file : bool)
    (h h1 h2 : history) (e : exn) :
  XLRDError = None -> ExcelFile input_file = Ok xls ->
  for_each before
    (process_sheet xls output_file encoding upload save_as_file) h =
  (Ok tt, h1) ->
  sheet_body xls output_file encoding upload save_as_file spec h1 =
  (Raise e, h2) ->
  process_excel_to_markdown input_file output_file (before ++ spec :: after)
                            encoding upload save_as_file h =
  (Ok tt, h2 ++ [Log ERROR (Unexpected (AttributeError (lit "XLRDError")))]).
Proof.
  intros Hx Ho Hb Hs. unfold process_excel_to_markdown, try_catch, bindM, lift.
  rewrite Ho.
  assert (G : for_each (before ++ spec :: after)
                (process_sheet xls output_file encoding upload save_as_file) h
              = (Raise (AttributeError (lit "XLRDError")), h2)).
  { revert h Hb. induction before as [|b bs IH]; intros h Hb.
    - injection Hb as <-. simpl. unfold bindM, process_sheet, try_catch.
      rewrite Hs. unfold sheet_handlers. now rewrite Hx.
    - simpl in *. unfold bindM in *.
      destruct (process_sheet xls output_file encoding upload save_as_file b h)
        as [[[] | x] h']; [now apply IH | discriminate]. }
  now rewrite G.
Qed.

(** A sheet whose upload fails does not stop the loop. *)
Lemma loop_after_failed_upload (xls : workbook)
    (output_file encoding name : str) (spec : sheet_spec)
    (rest : list sheet_spec) (markdown_array : list str)
    (h h1 : history) (e : exn) :
  let file := basename (output_file ++ lit "_" ++ name) in
  let data := join [newline] markdown_array in
  resolve (sheet_names xls) (sheet spec) = Ok name ->
  read_and_render xls name (range spec) h = (Ok markdown_array, h1) ->
  upload_failure
    (requests_post (h1 ++ [Posted api_url bearer file data])
                   api_url bearer file data) = Some e ->
  for_each (spec :: rest)
    (process_sheet xls output_file encoding true false) h =
  for_each rest (process_sheet xls output_file encoding true false)
    (h1 ++ [Posted api_url bearer file data; Log ERROR (PostFailed file e)]).
Proof.
  intros file data Hr Hread Hup. simpl.
  unfold bindM at 1. unfold process_sheet, try_catch, sheet_body.
  unfold bindM at 1. unfold lift. rewrite Hr.
  unfold sheet_steps, bindM at 1. rewrite Hread.
  rewrite save_upload_only. fold file data.
  now rewrite (post_failed data file h1 e Hup).
Qed.

End Facts.

End DriverFacts.

(** * The claims of the specification *)

Import StrFacts Range Selector Render Driver.

(** ** RangeSpecParser *)

(** C2.  On every range string made of letters, a decimal numeral, a colon,
    letters and a decimal numeral, the parser returns the column range
    [<startCol>:<endCol>], [skiprows = startRow - 1] and
    [nrows = endRow - skiprows]; so [A1:D10] gives [A:D], 0 and 10, and
    [B5:B20] gives [B:B], 4 and 16. *)
Theorem range_parse_correct (sc sr ec er : str) :
  forallb isletter sc = true -> row_ok sr = true ->
  forallb isletter ec = true -> row_ok er = true ->
  excel_range_to_params (sc ++ sr ++ lit ":" ++ ec ++ er) =
    Ok (mk_params (sc ++ lit ":" ++ ec)
                  (numeral sr - 1) (numeral er - (numeral sr - 1)))
  /\ excel_range_to_params (lit "A1:D10") = Ok (mk_params (lit "A:D") 0 10)
  /\ excel_range_to_params (lit "B5:B20") = Ok (mk_params (lit "B:B") 4 16).
Proof.
  intros Hsc Hsr Hec Her. split; [|split; reflexivity].
  now apply RangeFacts.parse_shape.
Qed.

Lemma range_parse_correct_witness :
  excel_range_to_params (lit "AB12:CD345") =
  Ok (mk_params (lit "AB:CD") 11 334).
Proof.
  exact (proj1 (range_parse_correct (lit "AB") (lit "12") (lit "CD")
                  (lit "345") eq_refl eq_refl eq_refl eq_refl)).
Defined.

(** C5, as the specification states it, fails: [1A:2B] is not of the shape
    [<letters><digits>:<letters><digits>], and the parser returns a result
    for it. *)
Lemma range_failure_counterexample :
  ~ (raises (excel_range_to_params (lit "1A:2B")) = true <->
     matches_range_form (lit "1A:2B") = false).
Proof. intros [_ H]. specialize (H eq_refl). discriminate H. Qed.

(** C5, amended.  The parser fails exactly when the digits before the first
    colon, or the digits after it, are not a decimal numeral: there is none,
    or a superscript digit is among them.  So every string of the shape
    [<letters><digits>:<letters><digits>] is parsed, and [A:D10] fails. *)
Theorem range_parse_failure (s : str) :
  (raises (excel_range_to_params s) = true <->
     row_ok (filter isdigit (before_colon s)) = false
     \/ row_ok (filter isdigit (after_colon s)) = false)
  /\ (matches_range_form s = true ->
      raises (excel_range_to_params s) = false)
  /\ raises (excel_range_to_params (lit "A:D10")) = true.
Proof.
  split; [|split; [|reflexivity]].
  - rewrite RangeFacts.parse_by_rows. cbv zeta.
    destruct (row_ok (filter isdigit (before_colon s)));
      destruct (row_ok (filter isdigit (after_colon s))); simpl;
      intuition congruence.
  - intros H.
    destruct (RangeFacts.matches_shape s H)
      as (sc & sr & ec & er & -> & Hsc & Hsr & Hec & Her).
    now rewrite RangeFacts.parse_shape.
Qed.

Lemma range_parse_failure_witness :
  raises (excel_range_to_params (lit "A1:D10")) = false
  /\ raises (excel_range_to_params (lit "A1:")) = true.
Proof.
  split.
  - exact (proj1 (proj2 (range_parse_failure (lit "A1:D10"))) eq_refl).
  - apply (proj1 (range_parse_failure (lit "A1:"))). right. reflexivity.
Defined.

(** ** SheetSelector *)

(** C7, as the specification states it, fails: the name of a token is not
    kept as written, the white space around it is removed. *)
Lemma name_selector_counterexample :
  let toks := [Ranged (lit "Sheet1") (lit "A1:B10"); Bare (lit " Sheet2")] in
  forallb name_token_plain toks = true
  /\ forallb name_token_valid toks = true
  /\ parse_sheet_names (join (lit ",") (map name_token_text toks))
     <> Ok (map name_token_spec_verbatim toks).
Proof. repeat split. discriminate. Qed.

(** C7, amended.  A token [Name!Range] whose range passes the range check
    yields the SheetSpec of the name with the white space around it removed
    and of that range, a bare token the SheetSpec of the stripped name with
    no range, in token order; when the range of a token fails the check,
    the parse raises [ValueError] with that range and returns no list. *)
Theorem name_selector_parse (toks : list name_token) :
  toks <> [] -> forallb name_token_plain toks = true ->
  (forallb name_token_valid toks = true ->
   parse_sheet_names (join (lit ",") (map name_token_text toks)) =
   Ok (map name_token_spec toks))
  /\ (forall pre name r post,
        toks = pre ++ Ranged name r :: post ->
        forallb name_token_valid pre = true -> range_checker r = false ->
        parse_sheet_names (join (lit ",") (map name_token_text toks)) =
        Raise (invalid_range r))
  /\ parse_sheet_names (lit "Sheet1!A1:B10,Sheet2") =
     Ok [mk_spec (Name (lit "Sheet1")) (lit "A1:B10");
         mk_spec (Name (lit "Sheet2")) []].
Proof.
  intros Hne Hp. unfold parse_sheet_names.
  rewrite SelectorFacts.split_name_tokens by assumption.
  split; [|split; [|reflexivity]].
  - intros Hv. now rewrite SelectorFacts.names_loop_valid.
  - intros pre name r post -> Hv Hr.
    now apply SelectorFacts.names_loop_invalid.
Qed.

Lemma name_selector_parse_witness :
  parse_sheet_names (lit " Sheet1 !A1:B10,Sheet2") =
    Ok [mk_spec (Name (lit "Sheet1")) (lit "A1:B10");
        mk_spec (Name (lit "Sheet2")) []]
  /\ parse_sheet_names (lit "Sheet1,Sheet2!A:D10,Sheet3") =
     Raise (invalid_range (lit "A:D10")).
Proof.
  split.
  - apply (proj1 (name_selector_parse
                    [Ranged (lit " Sheet1 ") (lit "A1:B10");
                     Bare (lit "Sheet2")]
                    ltac:(discriminate) eq_refl)).
    reflexivity.
  - apply (proj1 (proj2 (name_selector_parse
                    [Bare (lit "Sheet1"); Ranged (lit "Sheet2") (lit "A:D10");
                     Bare (lit "Sheet3")]
                    ltac:(discriminate) eq_refl))
             [Bare (lit "Sheet1")] (lit "Sheet2") (lit "A:D10")
             [Bare (lit "Sheet3")]); reflexivity.
Defined.

(** C8.  A number selector whose tokens are decimal numerals or two
    numerals around a hyphen yields, in token order and with repetitions
    kept, the index of each single token and the inclusive sequence
    a, a+1, ..., b of each token [a-b], every SheetSpec without a range;
    [1-3,5] yields the indices 1, 2, 3, 5. *)
Theorem number_selector_expansion (toks : list number_token) :
  toks <> [] -> Forall number_token_ok toks ->
  parse_sheet_numbers (join (lit ",") (map number_token_text toks)) =
    Ok (map (fun i => mk_spec (Index i) [])
            (flat_map number_token_indices toks))
  /\ parse_sheet_numbers (lit "1-3,5") =
     Ok [mk_spec (Index 1) []; mk_spec (Index 2) [];
         mk_spec (Index 3) []; mk_spec (Index 5) []].
Proof.
  intros Hne Hok. split; [|reflexivity].
  now apply SelectorFacts.parse_numbers_tokens.
Qed.

Lemma number_selector_expansion_witness :
  parse_sheet_numbers (lit "2-4,3,3,7-6") =
  Ok (map (fun i => mk_spec (Index i) []) [2; 3; 4; 3; 3]%Z).
Proof.
  apply (proj1 (number_selector_expansion
                  [Span (lit "2") (lit "4"); Single (lit "3");
                   Single (lit "3"); Span (lit "7") (lit "6")]
                  ltac:(discriminate)
                  ltac:(repeat constructor))).
Defined.

(** ** TableNormalizer *)



(** C6, as the specification states it, fails: a cell that holds the text
    of the marker is not recovered by undoing the escape, and no other
    inverse can do better, since for every renderer two different tables
    have the same rendered output. *)
Lemma unescape_counterexample :
  unescape_cell (escape_cell (Str (lit "a<br>b"))) <> Str (lit "a<br>b")
  /\ mk_df [Str (lit "c")] [[Str (lit "a<br>b")]]
     <> mk_df [Str (lit "c")] [[Str (lit "a" ++ [newline] ++ lit "b")]]
  /\ forall tabulate,
       convert_to_markdown_array tabulate
         (mk_df [Str (lit "c")] [[Str (lit "a<br>b")]]) =
       convert_to_markdown_array tabulate
         (mk_df [Str (lit "c")] [[Str (lit "a" ++ [newline] ++ lit "b")]]).
Proof. repeat split; try discriminate. Qed.

(** C6, amended.  For every cell that does not already hold the text of the
    marker, putting a line break back for every marker of the escaped cell
    recovers the cell exactly; escaping and trimming are functions of the
    table. *)
Theorem unescape_recovers (x : cell) :
  marker_free x = true -> unescape_cell (escape_cell x) = x.
Proof.
  destruct x as [|s|n]; simpl; intros H; try reflexivity.
  f_equal. apply RenderFacts.unescape_escape. now apply negb_true_iff.
Qed.

Lemma unescape_recovers_witness :
  unescape_cell
    (escape_cell (Str (lit "a<b" ++ [newline; newline] ++ lit "r>")))
  = Str (lit "a<b" ++ [newline; newline] ++ lit "r>").
Proof. apply unescape_recovers. reflexivity. Defined.

(** C9.  Trimming the lines a second time changes nothing. *)
Theorem clean_idempotent (markdown_array : list str) :
  clean_markdown_lines (clean_markdown_lines markdown_array) =
  clean_markdown_lines markdown_array.
Proof.
  unfold clean_markdown_lines. rewrite map_map.
  apply map_ext. apply RenderFacts.clean_line_idem.
Qed.

(** ** BatchDriver and OutputSink *)



(** The run of the specification's example: the second of three sheets
    does not exist. *)
Example three_sheets_run :
  @process_excel_to_markdown (Sample.world 200) (lit "book.xlsx")
    (lit "out") Sample.three_sheets (lit "ascii") false false [] =
  (Ok tt,
   [ReadExcel (lit "Sheet1") None;
    FileOpened (lit "out_Sheet1");
    FileWritten (lit "out_Sheet1")
      (lit "|item|" ++ [newline] ++ lit "|---|" ++ [newline]
       ++ lit "|caf?<br>bar|" ++ [newline] ++ lit "||");
    Log INFO (SavedFile (lit "out_Sheet1") (lit "ascii"));
    ReadExcel (lit "Nope") None;
    Log ERROR (SheetUnexpected (Name (lit "Nope"))
                 (ValueError (lit "Worksheet not found")));
    ReadExcel (lit "Sheet3") None;
    FileOpened (lit "out_Sheet3");
    FileWritten (lit "out_Sheet3")
      (lit "|item|" ++ [newline] ++ lit "|---|" ++ [newline]
       ++ lit "|caf?<br>bar|" ++ [newline] ++ lit "||");
    Log INFO (SavedFile (lit "out_Sheet3") (lit "ascii"))]).
Proof. reflexivity. Qed.

(** C4.  Without [save_as_file] and with [upload], the sink touches no
    file.  With [save_as_file] or without [upload], and a file system and a
    codec that accept the call, the file is written whatever the
    characters of the text: those the encoding lacks are replaced, and a
    text the encoding can represent is written as the strict encoder would
    write it.  With
    [upload] alone and an upload that fails, the sink returns without
    raising, having sent the request and logged one ERROR entry, and the
    loop of the driver goes on with the next sheet. *)
Theorem output_sink_contract (W : World) (markdown_array : list str)
    (output_file encoding : str) (upload save_as_file : bool) (h : history) :
  let data := join [newline] markdown_array in
  let file := basename output_file in
  let run := save_markdown markdown_array output_file encoding
               upload save_as_file h in
  (save_as_file || negb upload = false ->
   exists evs,
     snd run = h ++ evs
     /\ forallb (fun ev => negb (is_file_event ev)) evs = true)
  /\ (forall enc bytes,
        encode_strict enc data = Some bytes ->
        encode_replace enc data = bytes)
  /\ (save_as_file || negb upload = true ->
      forall enc,
        open_file h output_file = Ok tt ->
        codec encoding = Some enc ->
        write_file (h ++ [FileOpened output_file]) output_file
                   (encode_replace enc data) = Ok tt ->
        exists evs,
          snd run =
          h ++ FileOpened output_file
            :: FileWritten output_file (encode_replace enc data)
            :: Log INFO (SavedFile output_file encoding) :: evs)
  /\ (upload = true -> save_as_file = false ->
      forall e,
        upload_failure
          (requests_post (h ++ [Posted api_url bearer file data])
                         api_url bearer file data) = Some e ->
        run = (Ok tt, h ++ [Posted api_url bearer file data;
                            Log ERROR (PostFailed file e)]))
  /\ (forall xls base name spec rest h0 e,
        resolve (sheet_names xls) (sheet spec) = Ok name ->
        output_file = base ++ lit "_" ++ name ->
        read_and_render xls name (range spec) h0 = (Ok markdown_array, h) ->
        upload_failure
          (requests_post (h ++ [Posted api_url bearer file data])
                         api_url bearer file data) = Some e ->
        for_each (spec :: rest)
          (process_sheet xls base encoding true false) h0 =
        for_each rest (process_sheet xls base encoding true false)
          (h ++ [Posted api_url bearer file data;
                 Log ERROR (PostFailed file e)])).
Proof.
  cbv zeta. split; [|split; [|split; [|split]]].
  - apply DriverFacts.save_without_file.
  - intros enc bytes. apply DriverFacts.encode_replace_strict.
  - intros Hf enc Ho Hc Hw.
    rewrite (DriverFacts.save_with_file _ _ _ _ _ _ enc Hf Ho Hc Hw).
    destruct upload.
    + destruct (DriverFacts.post_events (join [newline] markdown_array)
                  (basename output_file)
                  (h ++ [FileOpened output_file;
                         FileWritten output_file
                           (encode_replace enc (join [newline] markdown_array));
                         Log INFO (SavedFile output_file encoding)]))
        as [evs [-> _]].
      exists evs. now rewrite <- app_assoc.
    + exists []. reflexivity.
  - intros -> -> e He. rewrite DriverFacts.save_upload_only.
    now apply DriverFacts.post_failed.
  - intros xls base name spec rest h0 e Hr -> Hread He.
    now apply DriverFacts.loop_after_failed_upload.
Qed.

Lemma output_sink_contract_witness :
  (exists evs,
     snd (@save_markdown (Sample.world 500) [lit "|a|"] (lit "out_S")
            (lit "ascii") true false []) = [] ++ evs
     /\ forallb (fun ev => negb (is_file_event ev)) evs = true)
  /\ (exists evs,
        snd (@save_markdown (Sample.world 500)
               [lit "|caf" ++ ["233"%char] ++ lit "|"] (lit "out_S")
               (lit "ascii") false false []) =
        [] ++ FileOpened (lit "out_S")
           :: FileWritten (lit "out_S") (lit "|caf?|")
           :: Log INFO (SavedFile (lit "out_S") (lit "ascii")) :: evs)
  /\ @save_markdown (Sample.world 500) [lit "|a|"] (lit "out_S")
       (lit "ascii") true false [] =
     (Ok tt,
      [] ++ [Posted api_url (lit "Bearer None") (lit "out_S") (lit "|a|");
             Log ERROR (PostFailed (lit "out_S")
                          (RequestException (lit "HTTPError")))]).
Proof.
  split; [|split].
  - apply (proj1 (output_sink_contract (Sample.world 500) [lit "|a|"]
                    (lit "out_S") (lit "ascii") true false [])).
    reflexivity.
  - apply (proj1 (proj2 (proj2 (output_sink_contract (Sample.world 500)
                    [lit "|caf" ++ ["233"%char] ++ lit "|"]
                    (lit "out_S") (lit "ascii") false false [])))
             eq_refl Sample.ascii_codec); reflexivity.
  - apply (proj1 (proj2 (proj2 (proj2 (output_sink_contract
                    (Sample.world 500) [lit "|a|"] (lit "out_S")
                    (lit "ascii") true false [])))));
      reflexivity.
Defined.

(** C10.  In a workbook with at least one sheet, the integer [i] of a
    SheetSpec resolves to the entry [i - 1] of the list of sheet names as
    Python indexes it: 1 to the number of sheets select in order, 0
    selects the last sheet, and a negative [i] above minus the number of
    sheets selects from the end; of the indices a number selector can
    yield, exactly those greater than the number of sheets raise. *)
Theorem index_resolution (names : list str) :
  names <> [] ->
  let n := Z.of_nat (List.length names) in
  resolve names (Index 0) = Ok (last names [])
  /\ (forall i, (- n < i <= 0)%Z ->
        resolve names (Index i) =
        Ok (nth (Z.to_nat (n + i - 1)) names []))
  /\ (forall i, (1 <= i <= n)%Z ->
        resolve names (Index i) = Ok (nth (Z.to_nat (i - 1)) names []))
  /\ (forall s specs spec,
        parse_sheet_numbers s = Ok specs -> In spec specs ->
        exists i,
          sheet spec = Index i
          /\ (resolve names (Index i) = Raise IndexError <-> (n < i)%Z)).
Proof.
  intros Hne n. split; [now apply DriverFacts.resolve_zero|].
  split; [apply DriverFacts.resolve_from_end|]. split.
  - intros i Hi. unfold resolve.
    now rewrite (DriverFacts.py_index_inside names (i - 1) []) by lia.
  - intros s specs spec Hs Hin.
    apply SelectorFacts.parse_numbers_nonneg in Hs.
    rewrite Forall_forall in Hs. destruct (Hs spec Hin) as [i [-> Hi]].
    exists i. split; [reflexivity|].
    pose proof (DriverFacts.resolve_raises_iff names i) as R. fold n in R.
    assert (Hn : (0 < n)%Z)
      by (unfold n; destruct names; [contradiction | simpl; lia]).
    split.
    + intros E. rewrite E in R. destruct (proj1 R eq_refl); lia.
    + intros Hi'. pose proof (proj2 R (or_introl Hi')) as E.
      unfold resolve in *. destruct (py_index names (i - 1));
        [discriminate E | reflexivity].
Qed.

Lemma index_resolution_witness :
  resolve [lit "A"; lit "B"; lit "C"] (Index 0) = Ok (lit "C")
  /\ resolve [lit "A"; lit "B"; lit "C"] (Index (-1)) = Ok (lit "B")
  /\ exists i,
       sheet (mk_spec (Index 4) []) = Index i
       /\ (resolve [lit "A"; lit "B"; lit "C"] (Index i) = Raise IndexError
           <-> (3 < i)%Z).
Proof.
  pose proof (index_resolution [lit "A"; lit "B"; lit "C"]
                ltac:(discriminate)) as [H0 [H1 [_ H3]]].
  split; [exact H0|]. split.
  - apply (H1 (-1)%Z). simpl. lia.
  - apply (H3 (lit "3-4")
              [mk_spec (Index 3) []; mk_spec (Index 4) []]).
    + reflexivity.
    + right. left. reflexivity.
Defined.

(** * Further properties of the code *)

(** ** Supporting facts *)

Module MoreFacts.

Import StrFacts Outcome.
Import Render Driver.

Lemma after_colon_absent (s : str) :
  contains ":" s = false -> after_colon s = [].
Proof.
  induction s as [|c r IH]; intros H; [reflexivity|].
  rewrite contains_cons in H. apply orb_false_iff in H as [Hc Hr].
  apply eqc_neq in Hc. simpl.
  replace (eqc c ":") with false by (symmetry; apply eqc_neq; congruence).
  now apply IH.
Qed.


(** *** White space around a numeral *)

Lemma lstrip_spaces (l x : str) :
  forallb isspace l = true -> lstrip (l ++ x) = lstrip x.
Proof.
  induction l as [|c r IH]; simpl; intros H; [reflexivity|].
  apply andb_true_iff in H as [-> Hr]. now apply IH.
Qed.

Lemma lstrip_solid_head (c : ascii) (r : str) :
  isspace c = false -> lstrip (c :: r) = c :: r.
Proof. intros H. simpl. now rewrite H. Qed.

Lemma row_ok_ends (n : str) :
  row_ok n = true ->
  exists c r, n = c :: r /\ isspace c = false
              /\ exists d q, rev n = d :: q /\ isspace d = false.
Proof.
  intros H. pose proof (row_ok_digits n H) as Hd.
  rewrite forallb_forall in Hd.
  assert (S : forall x, In x n -> isspace x = false)
    by (intros x Hx; now destruct (isdigit_solid x (Hd x Hx))).
  destruct n as [|c r]; [discriminate|].
  exists c, r. split; [reflexivity|]. split; [apply S; now left|].
  destruct (rev (c :: r)) as [|d q] eqn:E.
  - apply (f_equal (@List.length ascii)) in E.
    rewrite length_rev in E. discriminate.
  - exists d, q. split; [reflexivity|]. apply S. apply in_rev.
    rewrite E. now left.
Qed.

Lemma strip_padded (l n r : str) :
  forallb isspace l = true -> row_ok n = true ->
  forallb isspace r = true -> strip (l ++ n ++ r) = n.
Proof.
  intros Hl Hn Hr.
  destruct (row_ok_ends n Hn) as (c & t & -> & Hc & d & q & E & Hd).
  unfold strip, rstrip. rewrite lstrip_spaces by assumption.
  change ((c :: t) ++ r) with (c :: t ++ r).
  rewrite lstrip_solid_head by assumption.
  change (c :: t ++ r) with ((c :: t) ++ r).
  rewrite rev_app_distr, lstrip_spaces.
  - rewrite E, lstrip_solid_head by assumption.
    rewrite <- E. apply rev_involutive.
  - rewrite forallb_forall in *. intros x Hx. apply Hr. now apply in_rev.
Qed.

Lemma isspace_plain (c : ascii) :
  isspace c = true -> eqc "-" c = false /\ eqc "," c = false.
Proof.
  destruct c as [[] [] [] [] [] [] [] []]; vm_compute;
    intros H; try discriminate H; split; reflexivity.
Qed.

Lemma spaces_plain (s : str) :
  forallb isspace s = true ->
  contains "-" s = false /\ contains "," s = false.
Proof.
  intros H. rewrite forallb_forall in H.
  split; apply contains_false; intros Hin; apply H in Hin;
    destruct (isspace_plain _ Hin) as [E1 E2]; discriminate.
Qed.

Lemma int_space_isspace (c : ascii) :
  Padded.int_space c = true -> isspace c = true.
Proof.
  destruct c as [[] [] [] [] [] [] [] []]; vm_compute;
    intros H; try discriminate H; reflexivity.
Qed.

Lemma numeral_text_parts (p : Padded.numeral_text) :
  Padded.numeral_text_ok p = true ->
  forallb isspace (Padded.lead p) = true
  /\ row_ok (Padded.digits p) = true
  /\ forallb isspace (Padded.trail p) = true.
Proof.
  unfold Padded.numeral_text_ok. intros H.
  apply andb_true_iff in H as [H H3]. apply andb_true_iff in H as [H1 H2].
  repeat split; try assumption.
  - revert H1. apply RangeFacts.forallb_impl, int_space_isspace.
  - revert H3. apply RangeFacts.forallb_impl, int_space_isspace.
Qed.

Lemma numeral_text_plain (p : Padded.numeral_text) :
  Padded.numeral_text_ok p = true ->
  contains "-" (Padded.text p) = false
  /\ contains "," (Padded.text p) = false.
Proof.
  intros H. destruct (numeral_text_parts p H) as (Hl & Hn & Hr).
  unfold Padded.text. rewrite !contains_app.
  destruct (spaces_plain _ Hl) as [-> ->].
  destruct (spaces_plain _ Hr) as [-> ->].
  destruct (SelectorFacts.numeral_plain _ Hn) as [-> ->]. now split.
Qed.

Lemma int_numeral_text (p : Padded.numeral_text) :
  Padded.numeral_text_ok p = true ->
  int_or_raise (Padded.text p) = Ok (numeral (Padded.digits p)).
Proof.
  intros H. destruct (numeral_text_parts p H) as (Hl & Hn & Hr).
  pose proof (int_numeral _ Hn) as E.
  unfold int_or_raise, int in *. unfold Padded.text.
  rewrite strip_padded by assumption.
  rewrite (strip_solid (Padded.digits p)) in E; [now rewrite E|].
  pose proof (row_ok_digits _ Hn) as Hd.
  rewrite forallb_forall in *. intros c Hc.
  now destruct (isdigit_solid c (Hd c Hc)) as (-> & _).
Qed.

Lemma number_item_padded (t : Padded.token) :
  Padded.token_ok t = true ->
  number_item (Padded.token_text t) =
  Ok (number_token_indices (Padded.bare t)).
Proof.
  destruct t as [n | a b]; simpl; intros H; unfold number_item.
  - destruct (numeral_text_plain n H) as [-> _].
    now rewrite int_numeral_text.
  - apply andb_true_iff in H as [Ha Hb].
    destruct (numeral_text_plain a Ha) as [Ma _].
    destruct (numeral_text_plain b Hb) as [Mb _].
    rewrite contains_app, contains_cons, eqc_refl, orb_true_r.
    rewrite split_app, (split_none _ (Padded.text b)) by assumption.
    rewrite !int_numeral_text by assumption. simpl.
    unfold py_range. now rewrite SelectorFacts.py_range_inclusive.
Qed.

Lemma numbers_loop_padded (toks : list Padded.token) :
  forallb Padded.token_ok toks = true ->
  forall sheets,
    numbers_loop (map Padded.token_text toks) sheets =
    Ok (sheets ++ flat_map number_token_indices (map Padded.bare toks)).
Proof.
  induction toks as [|t ts IH]; simpl; intros H sheets.
  - now rewrite app_nil_r.
  - apply andb_true_iff in H as [Ht Hts].
    rewrite number_item_padded by assumption. simpl.
    now rewrite IH, app_assoc.
Qed.

Lemma padded_token_no_comma (t : Padded.token) :
  Padded.token_ok t = true -> contains "," (Padded.token_text t) = false.
Proof.
  destruct t as [n | a b]; simpl; intros H.
  - now destruct (numeral_text_plain n H).
  - apply andb_true_iff in H as [Ha Hb].
    rewrite contains_app, contains_cons.
    destruct (numeral_text_plain a Ha) as [_ ->].
    destruct (numeral_text_plain b Hb) as [_ ->]. reflexivity.
Qed.

(** *** Counting separators *)

Lemma split_length (sep : ascii) (s : str) :
  List.length (split sep s) = S (count_occ ascii_dec s sep).
Proof.
  induction s as [|c r IH]; [reflexivity|].
  cbn [split count_occ]. destruct (eqc c sep) eqn:E.
  - apply eqc_eq in E. subst c.
    destruct (ascii_dec sep sep) as [_|N]; [|contradiction].
    simpl. now rewrite IH.
  - apply eqc_neq in E.
    destruct (ascii_dec c sep) as [N|_]; [contradiction|].
    destruct (split sep r) as [|h t] eqn:S; [now apply split_not_nil in S|].
    simpl in *. exact IH.
Qed.

Lemma count_contains (c : ascii) (s : str) :
  1 <= count_occ ascii_dec s c -> contains c s = true.
Proof.
  intros H. apply contains_In. apply (count_occ_In ascii_dec). lia.
Qed.

Lemma count_absent (c : ascii) (s : str) :
  count_occ ascii_dec s c = 0 -> contains c s = false.
Proof.
  intros H. apply contains_false. now apply (count_occ_not_In ascii_dec).
Qed.

Lemma split_three (sep : ascii) (s : str) :
  2 <= count_occ ascii_dec s sep ->
  exists a b c rest, split sep s = a :: b :: c :: rest.
Proof.
  intros H. pose proof (split_length sep s) as L.
  destruct (split sep s) as [|a [|b [|c rest]]]; simpl in L; try lia.
  now exists a, b, c, rest.
Qed.

(** *** The loops of the selectors *)

Lemma int_or_raise_value_error (s : str) (e : exn) :
  int_or_raise s = Raise e -> is_value_error e.
Proof.
  unfold int_or_raise. destruct (int s); [discriminate|].
  intros H. injection H as <-. eexists. reflexivity.
Qed.

Lemma number_item_value_error (item : str) (e : exn) :
  number_item item = Raise e -> is_value_error e.
Proof.
  unfold number_item. destruct (contains "-" item).
  - destruct (split "-" item) as [|a [|b [|c rest]]].
    + intros H. injection H as <-. eexists. reflexivity.
    + intros H. injection H as <-. eexists. reflexivity.
    + destruct (int_or_raise a) eqn:Ea;
        [|intros H; injection H as <-;
          now apply int_or_raise_value_error with a].
      destruct (int_or_raise b) eqn:Eb;
        [discriminate
        |intros H; injection H as <-;
         now apply int_or_raise_value_error with b].
    + destruct (int_or_raise a) eqn:Ea;
        [|intros H; injection H as <-;
          now apply int_or_raise_value_error with a].
      destruct (int_or_raise b) eqn:Eb;
        [|intros H; injection H as <-;
          now apply int_or_raise_value_error with b].
      destruct (int_or_raise c) eqn:Ec;
        [|intros H; injection H as <-;
          now apply int_or_raise_value_error with c].
      intros H. injection H as <-. eexists. reflexivity.
  - destruct (int_or_raise item) eqn:E; [discriminate|].
    intros H. injection H as <-. now apply int_or_raise_value_error with item.
Qed.

Lemma numbers_loop_rejects (items : list str) (t : str) :
  In t items -> raises (number_item t) = true ->
  forall sheets, exists msg,
    numbers_loop items sheets = Raise (ValueError msg).
Proof.
  induction items as [|item rest IH]; intros Hin Ht sheets; [contradiction|].
  simpl. destruct (number_item item) as [added|e] eqn:E.
  - simpl. destruct Hin as [->|Hin]; [rewrite E in Ht; discriminate|].
    now apply IH.
  - simpl. destruct (number_item_value_error item e E) as [msg ->].
    now exists msg.
Qed.

Lemma number_item_leading_hyphen (r : str) :
  raises (number_item ("-"%char :: r)) = true.
Proof.
  unfold number_item. rewrite contains_cons, eqc_refl. simpl.
  destruct (split "-" r) as [|b [|c rest]] eqn:S;
    [now apply split_not_nil in S | reflexivity | reflexivity].
Qed.

Lemma number_item_many_hyphens (t : str) :
  2 <= count_occ ascii_dec t "-"%char -> raises (number_item t) = true.
Proof.
  intros H. unfold number_item.
  rewrite count_contains by lia.
  destruct (split_three "-" t H) as (a & b & c & rest & ->).
  destruct (int_or_raise a); [|reflexivity].
  destruct (int_or_raise b); [|reflexivity].
  destruct (int_or_raise c); reflexivity.
Qed.

Lemma name_item_value_error (item : str) (e : exn) :
  name_item item = Raise e -> is_value_error e.
Proof.
  unfold name_item. destruct (contains "!" item); [|discriminate].
  destruct (split "!" item) as [|a [|b [|c rest]]];
    try (intros H; injection H as <-; eexists; reflexivity).
  destruct (negb (range_checker b)); [|discriminate].
  intros H; injection H as <-; eexists; reflexivity.
Qed.

Lemma names_loop_rejects (items : list str) (t : str) :
  In t items -> raises (name_item t) = true ->
  forall sheets, exists msg,
    names_loop items sheets = Raise (ValueError msg).
Proof.
  induction items as [|item rest IH]; intros Hin Ht sheets; [contradiction|].
  simpl. destruct (name_item item) as [spec|e] eqn:E.
  - simpl. destruct Hin as [->|Hin]; [rewrite E in Ht; discriminate|].
    now apply IH.
  - simpl. destruct (name_item_value_error item e E) as [msg ->].
    now exists msg.
Qed.

Lemma names_loop_bare (items : list str) :
  Forall (fun t => contains "!" t = false) items ->
  forall sheets,
    names_loop items sheets =
    Ok (sheets ++ map (fun t => mk_spec (Name (strip t)) []) items).
Proof.
  induction 1 as [|t ts Ht Hts IH]; intros sheets; simpl.
  - now rewrite app_nil_r.
  - unfold name_item. rewrite Ht. simpl. now rewrite IH, <- app_assoc.
Qed.

Lemma name_item_ok (item : str) (sp : sheet_spec) :
  name_item item = Ok sp -> name_spec_ok sp.
Proof.
  unfold name_item. destruct (contains "!" item).
  - destruct (split "!" item) as [|a [|b [|c rest]]]; try discriminate.
    destruct (range_checker b) eqn:R; [|discriminate].
    simpl. intros H. injection H as <-. exists (strip a). simpl.
    split; [reflexivity|]. split; [apply strip_idem|]. intros _.
    unfold range_checker in R.
    destruct (excel_range_to_params b) as [p|]; [now exists p | discriminate].
  - intros H. injection H as <-. exists (strip item). simpl.
    split; [reflexivity|]. split; [apply strip_idem | discriminate].
Qed.

Lemma names_loop_ok (items : list str) :
  forall sheets out,
    Forall name_spec_ok sheets ->
    names_loop items sheets = Ok out ->
    Forall name_spec_ok out
    /\ List.length out = List.length sheets + List.length items.
Proof.
  induction items as [|item rest IH]; simpl; intros sheets out Hs H.
  - injection H as <-. split; [assumption | lia].
  - destruct (name_item item) as [sp|] eqn:E; [|discriminate].
    simpl in H. apply IH in H.
    + destruct H as [H1 H2]. split; [assumption|].
      rewrite H2, length_app. simpl. lia.
    + apply Forall_app. split; [assumption|].
      constructor; [now apply name_item_ok with item | constructor].
Qed.

(** *** Splitting, joining and trimming *)

Lemma join_cons_head (sep : str) (c : ascii) (h : str) (t : list str) :
  join sep ((c :: h) :: t) = c :: join sep (h :: t).
Proof. destruct t; reflexivity. Qed.

(** Joining what was split gives the string back. *)
Lemma join_split (sep : ascii) (s : str) :
  join [sep] (split sep s) = s.
Proof.
  induction s as [|c r IH]; [reflexivity|].
  cbn [split]. destruct (eqc c sep) eqn:E.
  - apply eqc_eq in E. subst c.
    destruct (split sep r) as [|h t] eqn:S; [now apply split_not_nil in S|].
    change (join [sep] ([] :: h :: t)) with (sep :: join [sep] (h :: t)).
    now rewrite IH.
  - destruct (split sep r) as [|h t] eqn:S; [now apply split_not_nil in S|].
    now rewrite join_cons_head, IH.
Qed.

Lemma solid_app (a b : str) :
  Text.solid (a ++ b) = Text.solid a ++ Text.solid b.
Proof. apply filter_app. Qed.

Lemma solid_spaces (sp : str) :
  Forall (fun c => isspace c = true) sp -> Text.solid sp = [].
Proof.
  induction 1 as [|c r Hc Hr IH]; [reflexivity|].
  unfold Text.solid in *. simpl. now rewrite Hc.
Qed.

Lemma solid_strip (s : str) : Text.solid (strip s) = Text.solid s.
Proof.
  unfold strip.
  destruct (lstrip_split s) as [sp1 [E1 H1]].
  destruct (rstrip_split (lstrip s)) as [sp2 [E2 H2]].
  rewrite E1 at 2. rewrite E2 at 2.
  rewrite !solid_app, (solid_spaces sp1 H1), (solid_spaces sp2 H2).
  now rewrite app_nil_r.
Qed.

Lemma solid_join_strip (parts : list str) :
  Text.solid (join [pipe] (map strip parts)) =
  Text.solid (join [pipe] parts).
Proof.
  induction parts as [|p ps IH]; [reflexivity|].
  destruct ps as [|q qs].
  - simpl. apply solid_strip.
  - change (join [pipe] (map strip (p :: q :: qs)))
      with (strip p ++ [pipe] ++ join [pipe] (map strip (q :: qs))).
    change (join [pipe] (p :: q :: qs))
      with (p ++ [pipe] ++ join [pipe] (q :: qs)).
    now rewrite !solid_app, solid_strip, IH.
Qed.

Lemma clean_line_solid (line : str) :
  Text.solid (clean_line line) = Text.solid line.
Proof.
  unfold clean_line. destruct (contains pipe line); [|reflexivity].
  cbv zeta. now rewrite solid_join_strip, join_split.
Qed.

Lemma pipes_solid (s : str) : Text.pipes (Text.solid s) = Text.pipes s.
Proof.
  unfold Text.pipes, Text.solid.
  induction s as [|c r IH]; [reflexivity|].
  simpl. destruct (isspace c) eqn:E; simpl.
  - destruct (ascii_dec c pipe) as [->|_]; [discriminate E | exact IH].
  - destruct (ascii_dec c pipe); now rewrite IH.
Qed.

Lemma clean_line_segments (line : str) :
  contains pipe line = true ->
  split pipe (clean_line line) = map strip (split pipe line).
Proof.
  intros Hp. unfold clean_line. rewrite Hp. cbv zeta.
  apply split_join.
  - destruct (split pipe line) eqn:S; [now apply split_not_nil in S|].
    discriminate.
  - apply Forall_map.
    eapply Forall_impl; [|apply (split_parts_clean pipe line)].
    intros s. apply contains_strip.
Qed.

(** *** Escaping with any marker *)

Lemma replaced_absent (old : ascii) (new s : str) :
  contains old new = false -> contains old (replace old new s) = false.
Proof.
  intros Hn. induction s as [|c r IH]; cbn [replace]; [reflexivity|].
  destruct (eqc c old) eqn:Hc.
  - now rewrite contains_app, Hn, IH.
  - rewrite contains_cons, IH. apply eqc_neq in Hc.
    replace (eqc old c) with false
      by (symmetry; apply eqc_neq; congruence). reflexivity.
Qed.

Lemma replaced_length (old : ascii) (new s : str) :
  List.length (replace old new s) + count_occ ascii_dec s old =
  List.length s + List.length new * count_occ ascii_dec s old.
Proof.
  induction s as [|c r IH]; cbn [replace count_occ]; [simpl; lia|].
  destruct (eqc c old) eqn:Hc.
  - apply eqc_eq in Hc. subst c.
    destruct (ascii_dec old old) as [_|N]; [|contradiction].
    rewrite length_app. simpl. lia.
  - apply eqc_neq in Hc.
    destruct (ascii_dec c old) as [N|_]; [contradiction|].
    simpl. lia.
Qed.

Lemma escape_cell_idem (x : cell) : escape_cell (escape_cell x) = escape_cell x.
Proof.
  destruct x as [|s|n]; simpl; try reflexivity.
  f_equal. apply RenderFacts.replace_absent, RenderFacts.escaped_no_newline.
Qed.

(** *** The selectors raise nothing but [ValueError] *)

Lemma numbers_loop_value_error (items : list str) :
  forall sheets e,
    numbers_loop items sheets = Raise e -> is_value_error e.
Proof.
  induction items as [|item rest IH]; simpl; intros sheets e H;
    [discriminate|].
  destruct (number_item item) as [added|x] eqn:E; simpl in H.
  - now apply IH in H.
  - injection H as <-. now apply number_item_value_error with item.
Qed.

Lemma parse_numbers_value_error (s : str) (e : exn) :
  parse_sheet_numbers s = Raise e -> is_value_error e.
Proof.
  unfold parse_sheet_numbers.
  destruct (numbers_loop (split "," s) []) as [sheets|x] eqn:E;
    [discriminate|].
  simpl. intros H. injection H as <-.
  now apply numbers_loop_value_error in E.
Qed.

Lemma names_loop_value_error (items : list str) :
  forall sheets e,
    names_loop items sheets = Raise e -> is_value_error e.
Proof.
  induction items as [|item rest IH]; simpl; intros sheets e H;
    [discriminate|].
  destruct (name_item item) as [sp|x] eqn:E; simpl in H.
  - now apply IH in H.
  - injection H as <-. now apply name_item_value_error with item.
Qed.

(** *** The prompt *)

Lemma startswith_split (prefix s : str) :
  Cli.startswith prefix s = true ->
  s = prefix ++ skipn (List.length prefix) s.
Proof.
  revert s. induction prefix as [|p ps IH]; intros s H; [reflexivity|].
  destruct s as [|c r]; [discriminate|]. simpl in H.
  apply andb_true_iff in H as [Hc Hr]. apply eqc_eq in Hc. subst c.
  simpl. f_equal. now apply IH.
Qed.

Lemma get_input_file_spec (isfile : str -> bool) (answers : list str) :
  match Cli.get_input_file isfile answers with
  | (Ok path, evs, rest) =>
      isfile path = true
      /\ exists rejected,
           answers = rejected ++ (Cli.file_scheme ++ path) :: rest
           /\ existsb (Cli.accepted isfile) rejected = false
           /\ evs = map Cli.rejection rejected
  | (Raise e, evs, rest) =>
      e = Cli.EOFError
      /\ existsb (Cli.accepted isfile) answers = false
      /\ evs = map Cli.rejection answers /\ rest = []
  end.
Proof.
  induction answers as [|a rest0 IH]; [now repeat split|].
  cbn [Cli.get_input_file].
  destruct (Cli.startswith Cli.file_scheme a) eqn:S.
  - destruct (isfile (skipn 7 a)) eqn:F.
    + split; [exact F|]. exists []. cbn [app existsb map].
      repeat split. f_equal. exact (startswith_split _ _ S).
    + assert (Ha : Cli.accepted isfile a = false)
        by (unfold Cli.accepted; now rewrite S, F).
      assert (Hj : Cli.rejection a = Cli.NotFound)
        by (unfold Cli.rejection; now rewrite S).
      destruct (Cli.get_input_file isfile rest0) as [[[path|e] evs] rest'].
      * destruct IH as [Hf [rej [-> [Hr ->]]]]. split; [exact Hf|].
        exists (a :: rej). cbn [app existsb map]. now rewrite Ha, Hj, Hr.
      * destruct IH as [-> [Hr [-> ->]]]. cbn [app existsb map].
        now rewrite Ha, Hj, Hr.
  - assert (Ha : Cli.accepted isfile a = false)
      by (unfold Cli.accepted; now rewrite S).
    assert (Hj : Cli.rejection a = Cli.BadFormat)
      by (unfold Cli.rejection; now rewrite S).
    destruct (Cli.get_input_file isfile rest0) as [[[path|e] evs] rest'].
    + destruct IH as [Hf [rej [-> [Hr ->]]]]. split; [exact Hf|].
      exists (a :: rej). cbn [app existsb map]. now rewrite Ha, Hj, Hr.
    + destruct IH as [-> [Hr [-> ->]]]. cbn [app existsb map].
      now rewrite Ha, Hj, Hr.
Qed.

(** *** The default base name *)

Lemma rfind_from_absent (c : ascii) (s : str) :
  contains c s = false -> forall i, Cli.rfind_from i c s = (-1)%Z.
Proof.
  induction s as [|x r IH]; intros H i; [reflexivity|].
  rewrite contains_cons in H. apply orb_false_iff in H as [Hx Hr].
  cbn [Cli.rfind_from]. rewrite (IH Hr). simpl.
  apply eqc_neq in Hx.
  replace (eqc x c) with false by (symmetry; apply eqc_neq; congruence).
  reflexivity.
Qed.

Lemma rfind_from_last (c : ascii) (a b : str) :
  contains c b = false ->
  forall i, (0 <= i)%Z ->
    Cli.rfind_from i c (a ++ c :: b) = (i + Z.of_nat (List.length a))%Z.
Proof.
  intros Hb. induction a as [|x r IH]; intros i Hi.
  - cbn [app Cli.rfind_from]. rewrite (rfind_from_absent c b Hb).
    simpl. rewrite eqc_refl. lia.
  - cbn [app Cli.rfind_from]. rewrite IH by lia.
    replace (0 <=? i + 1 + Z.of_nat (List.length r))%Z with true
      by (symmetry; apply Z.leb_le; lia).
    cbn [List.length]. lia.
Qed.

Lemma splitext_root_plain (stem ext : str) :
  contains "/" stem = false -> contains "/" ext = false ->
  contains "." ext = false ->
  existsb (fun c => negb (eqc c ".")) stem = true ->
  Cli.splitext_root (stem ++ lit "." ++ ext) = stem.
Proof.
  intros Hs He Hd Hx. unfold Cli.splitext_root, Cli.rfind.
  change (stem ++ lit "." ++ ext) with (stem ++ "."%char :: ext).
  rewrite rfind_from_absent
    by (rewrite contains_app, contains_cons, Hs, He; reflexivity).
  rewrite rfind_from_last by (assumption || lia).
  cbv zeta.
  replace (-1 <? 0 + Z.of_nat (List.length stem))%Z with true
    by (symmetry; apply Z.ltb_lt; lia).
  replace (Z.to_nat (-1 + 1)) with 0 by reflexivity.
  replace (Z.to_nat (0 + Z.of_nat (List.length stem) - (-1 + 1)))
    with (List.length stem) by lia.
  replace (Z.to_nat (0 + Z.of_nat (List.length stem)))
    with (List.length stem) by lia.
  cbn [skipn].
  rewrite firstn_app, Nat.sub_diag, firstn_all. simpl firstn.
  now rewrite app_nil_r, Hx.
Qed.

Lemma last_split_app (sep : ascii) (a b : str) :
  last (split sep (a ++ sep :: b)) [] = last (split sep b) [].
Proof.
  induction a as [|c r IH]; cbn [app split].
  - rewrite eqc_refl.
    destruct (split sep b) eqn:S; [now apply split_not_nil in S|].
    reflexivity.
  - assert (T : contains sep (r ++ sep :: b) = true)
      by (rewrite contains_app, contains_cons, eqc_refl; apply orb_true_r).
    destruct (split_two sep _ T) as (p & q & qs & E).
    rewrite E in IH. rewrite E.
    destruct (eqc c sep); exact IH.
Qed.

Lemma basename_plain (prefix name : str) :
  prefix = [] \/ (exists dir, prefix = dir ++ lit "/") ->
  contains "/" name = false ->
  basename (prefix ++ name) = name.
Proof.
  intros [->|[dir ->]] Hn; unfold basename.
  - simpl. now rewrite split_none.
  - rewrite <- app_assoc. change (lit "/" ++ name) with ("/"%char :: name).
    rewrite last_split_app. now rewrite split_none.
Qed.

(** *** The driver on an empty batch *)

Lemma process_empty_batch (W : World) (input base encoding : str)
    (upload save_as_file : bool) :
  process_excel_to_markdown input base [] encoding upload save_as_file [] =
  (Ok tt, Cli.open_only input).
Proof.
  unfold process_excel_to_markdown, Cli.open_only, try_catch, bindM, lift.
  destruct (ExcelFile input) as [xls|e]; [reflexivity|].
  destruct e; reflexivity.
Qed.

(** *** String equality and the loop without a handler *)

Lemma eqs_eq (a b : str) : eqs a b = true <-> a = b.
Proof.
  revert b. induction a as [|x a' IH]; intros [|y b']; simpl;
    try (split; [discriminate | discriminate]); [now split|].
  rewrite andb_true_iff, eqc_eq, IH. split.
  - intros [-> ->]. reflexivity.
  - intros H. injection H as -> ->. now split.
Qed.

Lemma existsb_eqs (flag : str) (argv : list str) :
  existsb (eqs flag) argv = true <-> In flag argv.
Proof.
  rewrite existsb_exists. split.
  - intros [x [Hx E]]. apply eqs_eq in E. now subst.
  - intros H. exists flag. split; [assumption | now apply eqs_eq].
Qed.

Lemma for_each_aborts {A} (body : A -> M unit) (before after : list A)
    (x : A) (e : exn) (h1 h2 : history) :
  body x h1 = (Raise e, h2) ->
  forall h,
    for_each before body h = (Ok tt, h1) ->
    for_each (before ++ x :: after) body h = (Raise e, h2).
Proof.
  intros Hx. induction before as [|b bs IH]; intros h Hb.
  - injection Hb as <-. simpl. unfold bindM. now rewrite Hx.
  - simpl in *. unfold bindM in *.
    destruct (body b h) as [[[]|y] h']; [now apply IH | discriminate].
Qed.

End MoreFacts.

Import MoreFacts.

(** ** RangeSpecParser *)

(** X1.  A range string without a colon is always rejected: the end row is
    missing, whatever else the string holds. *)
Theorem range_needs_colon (s : str) :
  contains ":" s = false ->
  (exists msg, excel_range_to_params s = Raise (ValueError msg))
  /\ range_checker s = false.
Proof.
  intros H. unfold range_checker.
  rewrite RangeFacts.parse_by_rows. cbv zeta.
  rewrite (after_colon_absent s H). simpl.
  destruct (row_ok (filter isdigit (before_colon s)));
    (split; [eexists; reflexivity | reflexivity]).
Qed.

Lemma range_needs_colon_witness :
  (exists msg, excel_range_to_params (lit "A1D10") = Raise (ValueError msg))
  /\ range_checker (lit "A1D10") = false.
Proof. apply range_needs_colon. reflexivity. Defined.



(** X3.  The result depends only on the digits and on the other characters
    found on each side of the first colon: digits and letters may come in
    any order and colons after the first are ignored. *)
Theorem range_parse_by_content (s t : str) :
  filter isdigit (before_colon s) = filter isdigit (before_colon t) ->
  filter (fun c => negb (isdigit c)) (before_colon s) =
  filter (fun c => negb (isdigit c)) (before_colon t) ->
  filter isdigit (after_colon s) = filter isdigit (after_colon t) ->
  filter other (after_colon s) = filter other (after_colon t) ->
  excel_range_to_params s = excel_range_to_params t.
Proof.
  intros H1 H2 H3 H4. rewrite !RangeFacts.parse_by_rows. cbv zeta.
  now rewrite H1, H2, H3, H4.
Qed.

Lemma range_parse_by_content_witness :
  excel_range_to_params (lit "A1:D10") =
  excel_range_to_params (lit "1A:1:D:0").
Proof. apply range_parse_by_content; reflexivity. Defined.

(** ** SheetSelector *)

(** X4.  A number selector never yields a negative index, a name or a
    range: every SheetSpec it returns is an index that is at least 0, with
    the empty range. *)
Theorem number_selector_never_negative (s : str) (specs : list sheet_spec) :
  parse_sheet_numbers s = Ok specs ->
  Forall (fun sp => exists i, sp = mk_spec (Index i) [] /\ (0 <= i)%Z) specs.
Proof. apply SelectorFacts.parse_numbers_nonneg. Qed.

Lemma number_selector_never_negative_witness :
  Forall (fun sp => exists i, sp = mk_spec (Index i) [] /\ (0 <= i)%Z)
         [mk_spec (Index 0) []; mk_spec (Index 1) []; mk_spec (Index 7) []].
Proof.
  apply (number_selector_never_negative (lit "0-1, +7")). reflexivity.
Defined.

(** X5.  White space that [int] skips, around the numerals of a number
    selector, changes nothing: the selector yields what it yields
    without it. *)
Theorem number_selector_padding (toks : list Padded.token) :
  toks <> [] -> forallb Padded.token_ok toks = true ->
  parse_sheet_numbers (join (lit ",") (map Padded.token_text toks)) =
  parse_sheet_numbers
    (join (lit ",") (map number_token_text (map Padded.bare toks))).
Proof.
  intros Hne Hok.
  rewrite (SelectorFacts.parse_numbers_tokens (map Padded.bare toks)).
  - unfold parse_sheet_numbers. change (lit ",") with [","%char].
    rewrite split_join.
    + now rewrite numbers_loop_padded.
    + destruct toks; [contradiction | discriminate].
    + apply Forall_map, Forall_forall. intros t Ht.
      apply padded_token_no_comma. rewrite forallb_forall in Hok. auto.
  - destruct toks; [contradiction | discriminate].
  - apply Forall_map, Forall_forall. intros t Ht.
    rewrite forallb_forall in Hok. specialize (Hok t Ht).
    destruct t as [n | a b]; simpl in *.
    + now destruct (numeral_text_parts n Hok) as (_ & ? & _).
    + apply andb_true_iff in Hok as [Ha Hb].
      destruct (numeral_text_parts a Ha) as (_ & ? & _).
      destruct (numeral_text_parts b Hb) as (_ & ? & _). now split.
Qed.

Lemma number_selector_padding_witness :
  parse_sheet_numbers (lit " 1 - 3, 5") = parse_sheet_numbers (lit "1-3,5").
Proof.
  apply (number_selector_padding
           [Padded.PSpan (Padded.mk_numeral_text (lit " ") (lit "1") (lit " "))
                         (Padded.mk_numeral_text (lit " ") (lit "3") []);
            Padded.PSingle (Padded.mk_numeral_text (lit " ") (lit "5") [])]
           ltac:(discriminate)).
  reflexivity.
Defined.

(** X6.  A number selector is rejected with [ValueError], and yields no
    SheetSpec at all, as soon as one of its tokens is empty (the empty
    selector, a doubled or a trailing comma), starts with a hyphen (a
    negative number) or holds more than one hyphen. *)
Theorem number_selector_rejects (s t : str) :
  In t (split "," s) ->
  t = [] \/ (exists r, t = "-"%char :: r)
  \/ 2 <= count_occ ascii_dec t "-"%char ->
  exists msg, parse_sheet_numbers s = Raise (ValueError msg).
Proof.
  intros Hin Hbad. unfold parse_sheet_numbers.
  assert (Ht : raises (number_item t) = true).
  { destruct Hbad as [->|[[r ->]|H]];
      [reflexivity | apply number_item_leading_hyphen
       | now apply number_item_many_hyphens]. }
  destruct (numbers_loop_rejects _ t Hin Ht []) as [msg ->].
  now exists msg.
Qed.

Lemma number_selector_rejects_witness :
  (exists msg, parse_sheet_numbers (lit "1,,2") = Raise (ValueError msg))
  /\ (exists msg, parse_sheet_numbers (lit "1,-3") = Raise (ValueError msg))
  /\ (exists msg, parse_sheet_numbers (lit "1-2-3") = Raise (ValueError msg)).
Proof.
  split; [|split].
  - apply (number_selector_rejects (lit "1,,2") []);
      [right; left; reflexivity | left; reflexivity].
  - apply (number_selector_rejects (lit "1,-3") (lit "-3"));
      [right; left; reflexivity | right; left; now exists (lit "3")].
  - apply (number_selector_rejects (lit "1-2-3") (lit "1-2-3"));
      [left; reflexivity | right; right; simpl; lia].
Defined.

(** X7.  A name selector without an exclamation mark never fails: it
    yields one SheetSpec per comma-separated token, empty tokens included,
    each with the stripped token as its name and no range. *)
Theorem name_selector_without_ranges (s : str) :
  contains "!" s = false ->
  parse_sheet_names s =
  Ok (map (fun t => mk_spec (Name (strip t)) []) (split "," s)).
Proof.
  intros H. unfold parse_sheet_names. rewrite names_loop_bare; [reflexivity|].
  apply Forall_forall. intros t Ht. apply contains_false. intros Hin.
  apply contains_false in H. apply H. now apply In_split with ","%char t.
Qed.

Lemma name_selector_without_ranges_witness :
  parse_sheet_names (lit "Sales , ,Costs") =
  Ok [mk_spec (Name (lit "Sales")) []; mk_spec (Name []) [];
      mk_spec (Name (lit "Costs")) []].
Proof.
  apply (name_selector_without_ranges (lit "Sales , ,Costs")). reflexivity.
Defined.

(** X8.  Every SheetSpec a name selector yields is a name without white
    space around it, and its range, when it has one, is a range the parser
    accepts: the driver's own call of the range parser cannot fail on it.
    There is one SheetSpec per comma-separated token. *)
Theorem name_selector_specs (s : str) (specs : list sheet_spec) :
  parse_sheet_names s = Ok specs ->
  List.length specs = List.length (split "," s)
  /\ Forall (fun sp =>
       exists name,
         sheet sp = Name name /\ strip name = name
         /\ (nonempty (range sp) = true ->
             exists p, excel_range_to_params (range sp) = Ok p)) specs.
Proof.
  unfold parse_sheet_names. intros H.
  apply names_loop_ok in H; [|constructor]. destruct H as [H1 H2].
  split; [exact H2 | exact H1].
Qed.

Lemma name_selector_specs_witness :
  List.length [mk_spec (Name (lit "S1")) (lit "B2:C3");
               mk_spec (Name (lit "S2")) []] =
  List.length (split "," (lit " S1!B2:C3,S2 "))
  /\ Forall (fun sp =>
       exists name,
         sheet sp = Name name /\ strip name = name
         /\ (nonempty (range sp) = true ->
             exists p, excel_range_to_params (range sp) = Ok p))
       [mk_spec (Name (lit "S1")) (lit "B2:C3"); mk_spec (Name (lit "S2")) []].
Proof. apply (name_selector_specs (lit " S1!B2:C3,S2 ")). reflexivity. Defined.

(** X9.  A name selector is rejected with [ValueError], and yields no
    SheetSpec at all, as soon as one of its tokens holds more than one
    exclamation mark or ends with one (an empty range). *)
Theorem name_selector_rejects (s t : str) :
  In t (split "," s) ->
  2 <= count_occ ascii_dec t "!"%char \/ (exists name, t = name ++ lit "!") ->
  exists msg, parse_sheet_names s = Raise (ValueError msg).
Proof.
  intros Hin Hbad. unfold parse_sheet_names.
  assert (Many : 2 <= count_occ ascii_dec t "!"%char ->
                 raises (name_item t) = true).
  { intros H. unfold name_item. rewrite count_contains by lia.
    now destruct (split_three "!" t H) as (a & b & c & rest & ->). }
  assert (Ht : raises (name_item t) = true).
  { destruct Hbad as [H|[name ->]]; [now apply Many|].
    destruct (count_occ ascii_dec name "!"%char) as [|k] eqn:K.
    - unfold name_item.
      change (name ++ lit "!") with (name ++ "!"%char :: []).
      rewrite contains_app, contains_cons, eqc_refl, orb_true_r.
      rewrite split_app by now apply count_absent. reflexivity.
    - apply Many. rewrite count_occ_app, K. simpl. lia. }
  destruct (names_loop_rejects _ t Hin Ht []) as [msg ->].
  now exists msg.
Qed.

Lemma name_selector_rejects_witness :
  (exists msg,
     parse_sheet_names (lit "S1,S2!A1:B2!C3") = Raise (ValueError msg))
  /\ (exists msg, parse_sheet_names (lit "S1!,S2") = Raise (ValueError msg)).
Proof.
  split.
  - apply (name_selector_rejects (lit "S1,S2!A1:B2!C3") (lit "S2!A1:B2!C3"));
      [right; left; reflexivity | left; simpl; lia].
  - apply (name_selector_rejects (lit "S1!,S2") (lit "S1!"));
      [left; reflexivity | right; now exists (lit "S1")].
Defined.

(** ** TableNormalizer *)

(** X10.  Trimming deletes white space and nothing else: a cleaned line and
    the line it comes from hold the same characters other than white space,
    in the same order, and so the same number of column separators; the
    lines stay as many as they were. *)
Theorem clean_removes_only_space (markdown_array : list str) :
  map Text.solid (clean_markdown_lines markdown_array) =
  map Text.solid markdown_array
  /\ map Text.pipes (clean_markdown_lines markdown_array) =
     map Text.pipes markdown_array.
Proof.
  unfold clean_markdown_lines. rewrite !map_map. split.
  - apply map_ext. apply clean_line_solid.
  - apply map_ext. intros line.
    now rewrite <- (pipes_solid (clean_line line)), clean_line_solid,
      pipes_solid.
Qed.

(** X11.  In a cleaned line that holds a column separator no segment
    between two separators, before the first or after the last, starts or
    ends with white space. *)
Theorem clean_segments_trimmed (markdown_array : list str) (line : str) :
  In line (clean_markdown_lines markdown_array) ->
  contains pipe line = true ->
  Forall (fun segment => strip segment = segment) (split pipe line).
Proof.
  unfold clean_markdown_lines. intros Hin Hp.
  apply in_map_iff in Hin as [line0 [<- _]].
  assert (H0 : contains pipe line0 = true).
  { destruct (contains pipe line0) eqn:E; [reflexivity|].
    unfold clean_line in Hp. rewrite E in Hp. congruence. }
  rewrite clean_line_segments by assumption.
  apply Forall_map, Forall_forall. intros s _. apply strip_idem.
Qed.

Lemma clean_segments_trimmed_witness :
  Forall (fun segment => strip segment = segment)
         (split pipe (lit "|a b|:--|")).
Proof.
  apply (clean_segments_trimmed [lit "head"; lit "|  a b | :-- |  "]).
  - right. left. reflexivity.
  - reflexivity.
Defined.

(** X12.  Escaping a table that is already escaped changes nothing, and
    filling the missing cells before or after escaping gives the same
    table. *)
Theorem escape_idempotent (df : DataFrame) :
  escape_newlines (escape_newlines df) = escape_newlines df
  /\ fillna [] (escape_newlines df) = escape_newlines (fillna [] df).
Proof.
  unfold escape_newlines, fillna, applymap. simpl. split; f_equal.
  - rewrite map_map. apply map_ext. intros row.
    rewrite map_map. apply map_ext. apply escape_cell_idem.
  - rewrite !map_map. apply map_ext. intros row.
    rewrite !map_map. apply map_ext. intros x. now destruct x.
Qed.

(** X13.  The escaping of [e2md.py], whose marker is a backslash and the
    letter n, leaves no line break in any cell of the table either, and a
    string cell comes out one character longer for every line break it
    held. *)
Theorem legacy_escape (df : DataFrame) :
  Forall (Forall (fun x => cell_has_newline x = false))
         (rows (Legacy.escape_newlines (fillna [] df)))
  /\ (forall s,
        exists s',
          Legacy.escape_cell (Str s) = Str s'
          /\ List.length s' = List.length s + count_occ ascii_dec s newline).
Proof.
  split.
  - unfold Legacy.escape_newlines, fillna, applymap. simpl.
    rewrite map_map. apply Forall_map, Forall_forall. intros row _.
    rewrite map_map. apply Forall_map, Forall_forall. intros x _.
    destruct x as [|s|n]; simpl; try reflexivity.
    now apply replaced_absent.
  - intros s. eexists. split; [reflexivity|].
    pose proof (replaced_length newline Legacy.marker s) as L.
    simpl in L. lia.
Qed.

(** X14.  The earlier versions end the file they write with a line break;
    the current one writes the same lines without the last line break. *)
Theorem legacy_file_text (markdown_array : list str) :
  markdown_array <> [] ->
  Legacy.file_text markdown_array =
  join [newline] markdown_array ++ [newline].
Proof.
  induction markdown_array as [|line rest IH]; intros Hne; [contradiction|].
  destruct rest as [|line' rest'].
  - simpl. now rewrite app_nil_r.
  - change (Legacy.file_text (line :: line' :: rest'))
      with ((line ++ [newline]) ++ Legacy.file_text (line' :: rest')).
    rewrite IH by discriminate.
    change (join [newline] (line :: line' :: rest'))
      with (line ++ [newline] ++ join [newline] (line' :: rest')).
    now rewrite <- !app_assoc.
Qed.

Lemma legacy_file_text_witness :
  Legacy.file_text [lit "|a|"; lit "|---|"] =
  join [newline] [lit "|a|"; lit "|---|"] ++ [newline].
Proof. apply legacy_file_text. discriminate. Defined.

(** ** OutputSink *)

(** X15.  With both targets asked for, the file is written before the
    request is sent, and an upload that fails leaves it written: the sink
    logs the failure and returns. *)
Theorem file_survives_failed_upload (W : World) (markdown_array : list str)
    (output_file encoding : str) (h : history)
    (enc : ascii -> option str) (e : exn) :
  let data := join [newline] markdown_array in
  let file := basename output_file in
  let written :=
    h ++ [FileOpened output_file;
          FileWritten output_file (encode_replace enc data);
          Log INFO (SavedFile output_file encoding)] in
  open_file h output_file = Ok tt ->
  codec encoding = Some enc ->
  write_file (h ++ [FileOpened output_file]) output_file
             (encode_replace enc data) = Ok tt ->
  upload_failure
    (requests_post (written ++ [Posted api_url bearer file data])
                   api_url bearer file data) = Some e ->
  save_markdown markdown_array output_file encoding true true h =
  (Ok tt,
   written ++ [Posted api_url bearer file data;
               Log ERROR (PostFailed file e)]).
Proof.
  intros data file written Ho Hc Hw He.
  rewrite (DriverFacts.save_with_file markdown_array output_file encoding
             true true h enc eq_refl Ho Hc Hw).
  now apply DriverFacts.post_failed.
Qed.

Lemma file_survives_failed_upload_witness :
  @save_markdown (Sample.world 503) [lit "|a|"] (lit "out_S") (lit "ascii")
    true true [] =
  (Ok tt,
   ([] ++ [FileOpened (lit "out_S"); FileWritten (lit "out_S") (lit "|a|");
           Log INFO (SavedFile (lit "out_S") (lit "ascii"))])
   ++ [Posted api_url (lit "Bearer None") (lit "out_S") (lit "|a|");
       Log ERROR (PostFailed (lit "out_S")
                    (RequestException (lit "HTTPError")))]).
Proof.
  apply (file_survives_failed_upload (Sample.world 503) [lit "|a|"]
           (lit "out_S") (lit "ascii") [] Sample.ascii_codec);
    reflexivity.
Defined.

(** X16.  When a file is asked for and writing it fails, the sink raises
    that exception and sends no request, even with [upload]: so for a
    file that cannot be opened, and for an encoding the codec registry
    does not know, in which case the file has been created and is left
    without text. *)
Theorem failed_write_blocks_upload (W : World) (markdown_array : list str)
    (output_file encoding : str) (upload save_as_file : bool) (h : history) :
  save_as_file || negb upload = true ->
  let run := save_markdown markdown_array output_file encoding
               upload save_as_file h in
  (forall e h1,
     write_text output_file encoding (join [newline] markdown_array) h =
     (Raise e, h1) ->
     run = (Raise e, h1))
  /\ (forall e, open_file h output_file = Raise e -> run = (Raise e, h))
  /\ (open_file h output_file = Ok tt -> codec encoding = None ->
      run = (Raise (LookupError (lit "unknown encoding: " ++ encoding)),
             h ++ [FileOpened output_file])).
Proof.
  intros Hf run.
  assert (G : forall e h1,
             write_text output_file encoding (join [newline] markdown_array) h
             = (Raise e, h1) -> run = (Raise e, h1)).
  { intros e h1 Hw. unfold run, save_markdown. rewrite Hf.
    unfold bindM at 1. unfold bindM at 1. now rewrite Hw. }
  split; [exact G|]. split.
  - intros e Ho. apply G. unfold write_text. unfold_m. now rewrite Ho.
  - intros Ho Hc. apply G. unfold write_text. rewrite Hc. unfold_m.
    now rewrite Ho.
Qed.

Lemma failed_write_blocks_upload_witness :
  @save_markdown (Sample.world 200) [lit "|a|"] (lit "out_S") (lit "utf-8")
    true true [] =
  (Raise (LookupError (lit "unknown encoding: " ++ lit "utf-8")),
   [] ++ [FileOpened (lit "out_S")]).
Proof.
  apply (proj2 (proj2 (failed_write_blocks_upload (Sample.world 200)
                         [lit "|a|"] (lit "out_S") (lit "utf-8") true true []
                         eq_refl)));
    reflexivity.
Defined.

(** ** BatchDriver *)



(** X18.  When the expression [pd.errors.XLRDError] does not evaluate, the
    isolation of the sheets is lost: the first sheet whose body raises ends
    the loop with the [AttributeError] of the handler lookup, the sheets
    after it are not attempted, and the outer handler logs that error; the
    driver still returns. *)
Theorem batch_ends_without_handler_class (W : World) (xls : workbook)
    (input_file output_file : str) (before after : list sheet_spec)
    (spec : sheet_spec) (encoding : str) (upload save_as_file : bool)
    (h h1 h2 : history) (e : exn) :
  XLRDError = None -> ExcelFile input_file = Ok xls ->
  for_each before
    (process_sheet xls output_file encoding upload save_as_file) h =
  (Ok tt, h1) ->
  sheet_body xls output_file encoding upload save_as_file spec h1 =
  (Raise e, h2) ->
  process_excel_to_markdown input_file output_file (before ++ spec :: after)
                            encoding upload save_as_file h =
  (Ok tt, h2 ++ [Log ERROR (Unexpected (AttributeError (lit "XLRDError")))]).
Proof. apply DriverFacts.handler_lookup_fails. Qed.

Lemma batch_ends_without_handler_class_witness :
  @process_excel_to_markdown SampleNoClass.world (lit "book.xlsx")
    (lit "out") Sample.three_sheets (lit "ascii") false false [] =
  (Ok tt,
   [ReadExcel (lit "Sheet1") None;
    FileOpened (lit "out_Sheet1");
    FileWritten (lit "out_Sheet1")
      (lit "|item|" ++ [newline] ++ lit "|---|" ++ [newline]
       ++ lit "|caf?<br>bar|" ++ [newline] ++ lit "||");
    Log INFO (SavedFile (lit "out_Sheet1") (lit "ascii"));
    ReadExcel (lit "Nope") None]
   ++ [Log ERROR (Unexpected (AttributeError (lit "XLRDError")))]).
Proof.
  apply (batch_ends_without_handler_class SampleNoClass.world
           [lit "Sheet1"; lit "Sheet3"] (lit "book.xlsx") (lit "out")
           [mk_spec (Name (lit "Sheet1")) []]
           [mk_spec (Name (lit "Sheet3")) []]
           (mk_spec (Name (lit "Nope")) []) (lit "ascii") false false []
           [ReadExcel (lit "Sheet1") None;
            FileOpened (lit "out_Sheet1");
            FileWritten (lit "out_Sheet1")
              (lit "|item|" ++ [newline] ++ lit "|---|" ++ [newline]
               ++ lit "|caf?<br>bar|" ++ [newline] ++ lit "||");
            Log INFO (SavedFile (lit "out_Sheet1") (lit "ascii"))]
           _ (ValueError (lit "Worksheet not found")));
    reflexivity.
Defined.

(** X25.  With [upload] alone the request is always sent, whatever the
    environment holds: its title is the last component of the output name,
    its content the lines joined by line breaks, and its authorization the
    word Bearer followed by the secret, or by the text None when
    [NOTEPM_SECRET] is not set. *)
Theorem upload_always_sent (W : World) (markdown_array : list str)
    (output_file encoding : str) (h : history) :
  (exists r evs,
     save_markdown markdown_array output_file encoding true false h =
     (r, h ++ Posted api_url bearer (basename output_file)
                     (join [newline] markdown_array) :: evs))
  /\ (NOTEPM_SECRET = None -> bearer = lit "Bearer None")
  /\ (forall secret,
        NOTEPM_SECRET = Some secret -> bearer = lit "Bearer " ++ secret).
Proof.
  split; [|split].
  - rewrite DriverFacts.save_upload_only.
    unfold post_markdown_to_api, raise_for_status. unfold_m.
    destruct (requests_post _ _ _ _ _) as [status | x].
    + destruct ((400 <=? status) && (status <? 600))%Z;
        eexists; eexists; simpl; rewrite <- app_assoc; reflexivity.
    + destruct x;
        try (eexists; eexists; simpl; reflexivity).
      eexists; eexists; simpl; rewrite <- app_assoc; reflexivity.
  - unfold bearer, get_secret_from_env. now intros ->.
  - unfold bearer, get_secret_from_env. now intros secret ->.
Qed.

Lemma upload_always_sent_witness :
  @bearer (Sample.world 200) = lit "Bearer None".
Proof.
  apply (proj1 (proj2 (upload_always_sent (Sample.world 200) [] [] [] []))).
  reflexivity.
Defined.

(** X26.  The sink catches the exceptions of the request only: any other
    exception of the HTTP client leaves [post_markdown_to_api], and
    [save_markdown] with it, after the request was handed over and with
    nothing logged. *)
Theorem other_upload_errors_propagate (W : World)
    (markdown_array : list str) (output_file encoding : str)
    (h : history) (e : exn) :
  let data := join [newline] markdown_array in
  let file := basename output_file in
  requests_post (h ++ [Posted api_url bearer file data])
                api_url bearer file data = Raise e ->
  (forall msg, e <> RequestException msg) ->
  save_markdown markdown_array output_file encoding true false h =
  (Raise e, h ++ [Posted api_url bearer file data]).
Proof.
  intros data file Hp Hne. rewrite DriverFacts.save_upload_only.
  fold data file. unfold post_markdown_to_api. unfold_m. rewrite Hp.
  destruct e; try reflexivity. now destruct (Hne msg).
Qed.

Lemma other_upload_errors_propagate_witness :
  @save_markdown SampleBrokenClient.world [lit "|a|"] (lit "d/out_S")
    (lit "ascii") true false [] =
  (Raise SampleBrokenClient.failure,
   [] ++ [Posted api_url (lit "Bearer s3cret") (lit "out_S") (lit "|a|")]).
Proof.
  apply (other_upload_errors_propagate SampleBrokenClient.world [lit "|a|"]
           (lit "d/out_S") (lit "ascii") []).
  - reflexivity.
  - discriminate.
Defined.

(** ** BatchDriver, again *)

(** X27.  A SheetSpec with an index that resolves is converted exactly as
    the SheetSpec with the name it resolves to: same reads, same output
    name, same log entries. *)
Theorem index_as_name (W : World) (xls : workbook)
    (output_file encoding : str) (upload save_as_file : bool)
    (i : Z) (name range_str : str) (h : history) :
  resolve (sheet_names xls) (Index i) = Ok name ->
  process_sheet xls output_file encoding upload save_as_file
                (mk_spec (Index i) range_str) h =
  process_sheet xls output_file encoding upload save_as_file
                (mk_spec (Name name) range_str) h.
Proof.
  intros Hr. unfold process_sheet, sheet_body, name_at_handler.
  cbn [sheet range]. rewrite Hr. reflexivity.
Qed.

Lemma index_as_name_witness :
  @process_sheet (Sample.world 200) [lit "Sheet1"; lit "Sheet3"] (lit "out")
    (lit "ascii") false false (mk_spec (Index 0) []) [] =
  @process_sheet (Sample.world 200) [lit "Sheet1"; lit "Sheet3"] (lit "out")
    (lit "ascii") false false (mk_spec (Name (lit "Sheet3")) []) [].
Proof.
  apply (index_as_name (Sample.world 200) [lit "Sheet1"; lit "Sheet3"]).
  reflexivity.
Defined.

(** ** The command line *)

(** X19.  When [get_input_file] returns, the path it returns names an
    existing file and is the first answer of the form [file://<path>] that
    does, with the scheme removed; every answer before it was rejected and
    logged one error.  When no answer is accepted, one error is logged for
    each and reading past the last answer raises [EOFError]. *)
Theorem prompt_result (isfile : str -> bool) (answers : list str) :
  (forall path evs rest,
     Cli.get_input_file isfile answers = (Ok path, evs, rest) ->
     isfile path = true
     /\ exists rejected,
          answers = rejected ++ (Cli.file_scheme ++ path) :: rest
          /\ existsb (Cli.accepted isfile) rejected = false
          /\ evs = map Cli.rejection rejected)
  /\ (forall e evs rest,
        Cli.get_input_file isfile answers = (Raise e, evs, rest) ->
        e = Cli.EOFError
        /\ existsb (Cli.accepted isfile) answers = false
        /\ evs = map Cli.rejection answers).
Proof.
  pose proof (get_input_file_spec isfile answers) as H. split.
  - intros path evs rest E. rewrite E in H. exact H.
  - intros e evs rest E. rewrite E in H.
    destruct H as (H1 & H2 & H3 & _). auto.
Qed.

Lemma prompt_result_witness :
  eqs (lit "/d/b.xlsx") (lit "/d/b.xlsx") = true
  /\ exists rejected,
       [lit "b.xlsx"; lit "file:///nope"; lit "file:///d/b.xlsx"; lit "x"] =
       rejected ++ (Cli.file_scheme ++ lit "/d/b.xlsx") :: [lit "x"]
       /\ existsb (Cli.accepted (eqs (lit "/d/b.xlsx"))) rejected = false
       /\ [Cli.BadFormat; Cli.NotFound] = map Cli.rejection rejected.
Proof.
  apply (proj1 (prompt_result (eqs (lit "/d/b.xlsx"))
                  [lit "b.xlsx"; lit "file:///nope"; lit "file:///d/b.xlsx";
                   lit "x"])).
  reflexivity.
Defined.

(** X20.  [main] ends in one of three ways only.  It exits with the usage
    error exactly when both selectors are given, before anything else.  An
    exception leaves it only as the [ValueError] of a selector, raised
    before the input file is asked for, the workbook opened or anything
    logged, or as the [EOFError] of the prompt.  Nothing raised while the
    workbook is opened or the sheets are converted leaves it. *)
Theorem main_exits (W : World) (isfile : str -> bool) (a : Cli.args)
    (answers : list str) :
  let run := Cli.main isfile a answers in
  (fst run = Cli.UsageError <->
   Cli.truthy (Cli.sheet_name a) && Cli.truthy (Cli.sheet_number a) = true)
  /\ (fst run = Cli.UsageError -> snd run = [])
  /\ (forall e,
        fst run = Cli.Uncaught e ->
        (Outcome.is_value_error e /\ snd run = [])
        \/ (e = Cli.EOFError /\ Cli.truthy (Cli.input_file a) = false
            /\ snd run = map Cli.rejection answers)).
Proof.
  cbv zeta. unfold Cli.main.
  destruct (Cli.truthy (Cli.sheet_name a) && Cli.truthy (Cli.sheet_number a))
    eqn:Both.
  { simpl. repeat split; try reflexivity. intros e H. discriminate H. }
  assert (Sel : forall e,
            (if Cli.truthy (Cli.sheet_name a)
             then parse_sheet_names (Cli.value (Cli.sheet_name a))
             else if Cli.truthy (Cli.sheet_number a)
             then parse_sheet_numbers (Cli.value (Cli.sheet_number a))
             else Ok []) = Raise e -> Outcome.is_value_error e).
  { intros e. destruct (Cli.truthy (Cli.sheet_name a)).
    - unfold parse_sheet_names. apply names_loop_value_error.
    - destruct (Cli.truthy (Cli.sheet_number a)); [|discriminate].
      apply parse_numbers_value_error. }
  destruct (if Cli.truthy (Cli.sheet_name a)
            then parse_sheet_names (Cli.value (Cli.sheet_name a))
            else if Cli.truthy (Cli.sheet_number a)
            then parse_sheet_numbers (Cli.value (Cli.sheet_number a))
            else Ok []) as [sheets|x] eqn:P.
  2:{ simpl. split; [split; discriminate|]. split; [discriminate|].
      intros e H. injection H as <-. left.
      split; [now apply Sel | reflexivity]. }
  destruct (Cli.truthy (Cli.input_file a)) eqn:In.
  - match goal with
    | |- context [process_excel_to_markdown ?i ?b ?s ?c ?u ?f ?h] =>
        pose proof (DriverFacts.process_returns i b s c u f h) as R;
        destruct (process_excel_to_markdown i b s c u f h) as [[[]|x] h1]
    end; [|discriminate R].
    simpl. split; [split; discriminate|]. split; discriminate.
  - pose proof (get_input_file_spec isfile answers) as G.
    destruct (Cli.get_input_file isfile answers) as [[[path|x] evs] rest].
    + match goal with
      | |- context [process_excel_to_markdown ?i ?b ?s ?c ?u ?f ?h] =>
          pose proof (DriverFacts.process_returns i b s c u f h) as R;
          destruct (process_excel_to_markdown i b s c u f h) as [[[]|y] h1]
      end; [|discriminate R].
      simpl. split; [split; discriminate|]. split; discriminate.
    + destruct G as (-> & _ & -> & _). simpl.
      split; [split; discriminate|]. split; [discriminate|].
      intros e H. injection H as <-. right. auto.
Qed.

Lemma main_exits_witness :
  (Outcome.is_value_error (invalid_range (lit "B"))
   /\ snd (@Cli.main (Sample.world 200) (fun _ => false)
             (Cli.mk_args None None (Some (lit "S!B")) None (lit "ascii")
                          false false false) []) = [])
  \/ (invalid_range (lit "B") = Cli.EOFError
      /\ Cli.truthy None = false
      /\ snd (@Cli.main (Sample.world 200) (fun _ => false)
                (Cli.mk_args None None (Some (lit "S!B")) None (lit "ascii")
                             false false false) []) =
         map Cli.rejection []).
Proof.
  apply (proj2 (proj2 (main_exits (Sample.world 200) (fun _ => false)
                         (Cli.mk_args None None (Some (lit "S!B")) None
                                      (lit "ascii") false false false) []))).
  reflexivity.
Defined.

(** X21.  Without a selector the batch is empty: [main] opens the workbook
    and converts nothing.  Between its two INFO entries there is nothing
    when the workbook opens, and the one ERROR entry of the driver when it
    does not; no sheet is read, no file written, no request sent. *)
Theorem main_without_selector (W : World) (isfile : str -> bool)
    (a : Cli.args) (answers : list str) (input : str) :
  Cli.truthy (Cli.sheet_name a) = false ->
  Cli.truthy (Cli.sheet_number a) = false ->
  Cli.input_file a = Some input -> nonempty input = true ->
  Cli.main isfile a answers =
  (Cli.Returned,
   Cli.Started :: map Cli.Core (Cli.open_only input) ++ [Cli.Finished]).
Proof.
  intros Hn Hs Hi Hne. unfold Cli.main. rewrite Hn, Hs, Hi. simpl.
  rewrite Hne. now rewrite process_empty_batch.
Qed.

Lemma main_without_selector_witness :
  @Cli.main (Sample.world 200) (fun _ => true)
    (Cli.mk_args (Some (lit "book.xlsx")) None None None (lit "ascii")
                 true false true) [] =
  (Cli.Returned,
   Cli.Started
   :: map Cli.Core (@Cli.open_only (Sample.world 200) (lit "book.xlsx"))
      ++ [Cli.Finished]).
Proof.
  apply (main_without_selector (Sample.world 200)); reflexivity.
Defined.

(** X22.  Without [-f] the output files are named after the input file:
    for an input [<dir>/<stem>.<ext>], or [<stem>.<ext>], [main] runs as
    it runs with the base name [<stem>]. *)
Theorem main_default_base_name (W : World) (isfile : str -> bool)
    (a : Cli.args) (answers : list str) (prefix stem ext : str) :
  Cli.truthy (Cli.file_base_name a) = false ->
  Cli.input_file a = Some (prefix ++ stem ++ lit "." ++ ext) ->
  prefix = [] \/ (exists dir, prefix = dir ++ lit "/") ->
  contains "/" stem = false -> contains "/" ext = false ->
  contains "." ext = false ->
  existsb (fun c => negb (eqc c ".")) stem = true ->
  Cli.main isfile a answers =
  Cli.main isfile (Cli.with_base_name a (Some stem)) answers.
Proof.
  intros Hb Hi Hp Hs He Hd Hx. unfold Cli.main, Cli.with_base_name.
  cbn [Cli.input_file Cli.file_base_name Cli.sheet_name Cli.sheet_number
       Cli.encoding Cli.upload Cli.save_as_file].
  rewrite Hb, Hi.
  assert (Hne : nonempty (prefix ++ stem ++ lit "." ++ ext) = true).
  { destruct prefix; [|reflexivity]. destruct stem; reflexivity. }
  assert (Hst : Cli.truthy (Some stem) = true)
    by (destruct stem; [discriminate Hx | reflexivity]).
  cbn [Cli.truthy Cli.value] in *. rewrite Hne, Hst.
  assert (B : Cli.splitext_root
                (basename (prefix ++ stem ++ lit "." ++ ext)) = stem).
  { rewrite basename_plain; [now apply splitext_root_plain|assumption|].
    rewrite contains_app, Hs. change (lit "." ++ ext) with ("."%char :: ext).
    now rewrite contains_cons, He. }
  now rewrite B.
Qed.

Lemma main_default_base_name_witness :
  @Cli.main (Sample.world 200) (fun _ => true)
    (Cli.mk_args (Some (lit "in/my.book.xlsx")) None (Some (lit "Sheet1"))
                 None (lit "ascii") false false false) [] =
  @Cli.main (Sample.world 200) (fun _ => true)
    (Cli.with_base_name
       (Cli.mk_args (Some (lit "in/my.book.xlsx")) None (Some (lit "Sheet1"))
                    None (lit "ascii") false false false)
       (Some (lit "my.book"))) [].
Proof.
  apply (main_default_base_name (Sample.world 200) (fun _ => true) _ []
           (lit "in/") (lit "my.book") (lit "xlsx")); try reflexivity.
  right. now exists (lit "in").
Defined.

(** ** The earlier versions *)

(** X23.  The driver of [ex2md.old.py] has no handler: a workbook that does
    not open, or the first sheet whose conversion raises, ends the run with
    that exception, and the sheets after it are not converted. *)
Theorem legacy_batch_aborts (W : World) (input_file output_file : str)
    (encoding : str) (h : history) :
  (forall e,
     ExcelFile input_file = Raise e ->
     Legacy.process_excel_to_markdown input_file output_file encoding h =
     (Raise e, h))
  /\ (forall xls before name after h1 h2 e,
        ExcelFile input_file = Ok xls ->
        sheet_names xls = before ++ name :: after ->
        for_each before
          (Legacy.convert_sheet input_file output_file encoding) h =
        (Ok tt, h1) ->
        Legacy.convert_sheet input_file output_file encoding name h1 =
        (Raise e, h2) ->
        Legacy.process_excel_to_markdown input_file output_file encoding h =
        (Raise e, h2)).
Proof.
  unfold Legacy.process_excel_to_markdown. split.
  - intros e Ho. unfold bindM, lift. now rewrite Ho.
  - intros xls before name after h1 h2 e Ho Hn Hb Hx.
    unfold bindM at 1. unfold lift. rewrite Ho, Hn.
    now apply for_each_aborts with h1.
Qed.

Lemma legacy_batch_aborts_witness :
  @Legacy.process_excel_to_markdown (Sample.world 200) (lit "lost.xlsx")
    (lit "out") (lit "ascii") [] = (Raise FileNotFoundError, [])
  /\ @Legacy.process_excel_to_markdown (Sample.world 200) (lit "book.xlsx")
       (lit "out") (lit "utf-8") [] =
     (Raise (LookupError (lit "unknown encoding: utf-8")),
      [ReadExcel (lit "Sheet1") None; FileOpened (lit "out_Sheet1")]).
Proof.
  split.
  - apply (proj1 (legacy_batch_aborts (Sample.world 200) (lit "lost.xlsx")
                    (lit "out") (lit "ascii") [])).
    reflexivity.
  - apply (proj2 (legacy_batch_aborts (Sample.world 200) (lit "book.xlsx")
                    (lit "out") (lit "utf-8") [])
             [lit "Sheet1"; lit "Sheet3"] [] (lit "Sheet1") [lit "Sheet3"] []);
      reflexivity.
Defined.

(** X24.  [main] of [e2md.py] checks for one argument and reads two: with
    the input file alone it raises [IndexError] instead of printing the
    usage.  With two arguments or more it converts the first into the
    second, in Shift JIS exactly when [--encoding=sjis] occurs anywhere on
    the command line and in UTF-8 otherwise. *)
Theorem legacy_main_arguments (argv : list str) :
  (List.length argv < 2 -> Legacy.main argv = Legacy.Usage)
  /\ (List.length argv = 2 -> Legacy.main argv = Legacy.ArgvIndexError)
  /\ (3 <= List.length argv ->
      exists input_file output_file encoding,
        Legacy.main argv = Legacy.Convert input_file output_file encoding
        /\ nth_error argv 1 = Some input_file
        /\ nth_error argv 2 = Some output_file
        /\ (In Legacy.sjis_flag argv -> encoding = lit "shift_jis")
        /\ (~ In Legacy.sjis_flag argv -> encoding = lit "utf-8")).
Proof.
  unfold Legacy.main. split; [|split].
  - intros H. apply Nat.ltb_lt in H. now rewrite H.
  - intros H. destruct argv as [|a [|b [|c r]]]; try discriminate H.
    reflexivity.
  - intros H. destruct argv as [|a [|b [|c r]]]; simpl in H; try lia.
    exists b, c. eexists. split; [reflexivity|].
    split; [reflexivity|]. split; [reflexivity|]. split.
    + intros Hin. apply existsb_eqs in Hin. now rewrite Hin.
    + intros Hin.
      destruct (existsb (eqs Legacy.sjis_flag) (a :: b :: c :: r)) eqn:E;
        [|reflexivity].
      apply existsb_eqs in E. contradiction.
Qed.

Lemma legacy_main_arguments_witness :
  Legacy.main [lit "e2md.py"; lit "in.xlsx"] = Legacy.ArgvIndexError
  /\ exists input_file output_file encoding,
       Legacy.main [lit "e2md.py"; lit "in.xlsx"; lit "--encoding=sjis"] =
       Legacy.Convert input_file output_file encoding
       /\ nth_error [lit "e2md.py"; lit "in.xlsx"; lit "--encoding=sjis"] 1 =
          Some input_file
       /\ nth_error [lit "e2md.py"; lit "in.xlsx"; lit "--encoding=sjis"] 2 =
          Some output_file
       /\ (In Legacy.sjis_flag
              [lit "e2md.py"; lit "in.xlsx"; lit "--encoding=sjis"] ->
           encoding = lit "shift_jis")
       /\ (~ In Legacy.sjis_flag
              [lit "e2md.py"; lit "in.xlsx"; lit "--encoding=sjis"] ->
           encoding = lit "utf-8").
Proof.
  split.
  - apply (proj1 (proj2 (legacy_main_arguments
                           [lit "e2md.py"; lit "in.xlsx"]))).
    reflexivity.
  - apply (proj2 (proj2 (legacy_main_arguments
                           [lit "e2md.py"; lit "in.xlsx";
                            lit "--encoding=sjis"]))).
    simpl. lia.
Defined.
